(** * management_crud: the inventory server, embedded and verified

    The repository is one Express server in two revisions.  The later one
    (nine routes: items, take-item, transactions) is the program modelled
    here; the earlier [app.js] has the same item routes and a shorter
    take-item and ledger listing, modelled beside the later ones
    ([take_item_v1], [get_transactions_v1]).  Each route handler is
    translated to a function from the request to a small program over the
    two JSON files, and the statements of the specification are then proved
    or refuted on those programs.

    Conventions of the embedding.
    - A JSON file holds the parsed form of its text: a list of objects.
      Both files exist, [initializeFiles] having run before the server
      listens.
    - A JS object used as a record is a finite map from property names to
      values ([gmap string _]); the order of the keys, which only shows in
      the layout of the JSON text, is not kept.
    - A number is an integer-valued double, carried as its integer, or NaN.
      Numerals with a fraction and integers beyond 2^53 lie outside the
      model; where a coercion of the language could produce one (a long
      digit string given to [parseInt], the string "1.5" compared with a
      number), the coercion answers [None] and the handler is [Unmodelled]
      at that input instead of computing something the server would not.
      So is a handler that would subtract with an operand or a result
      beyond 2^53, where the double subtraction rounds ([exact]).
    - A conversion of an object to a primitive throws a TypeError when the
      object has a property of its own named [toString] (parsed from JSON
      it is not callable); so does the conversion of an array with such an
      element ([throws]).  A handler then leaves its [try] for its
      [catch], as it does when an [fs] call fails ([Throw]).
    - Strings are byte strings (UTF-8); only the ASCII white space is
      recognised as such, a leading non-ASCII byte is outside the model.
    - What the handlers take from their environment is an argument of the
      model: the reading of the clock at a create, and which of the awaited
      [fs] calls of a request throw.  An [fs] call that throws has had no
      effect: a failed write leaves the file as it was.  (A write that
      fails after the file was opened may leave it cut short; such a
      failure is not among those modelled.)
    - A handler runs to its answer on its own ([run], [serve]) or in turns
      with others, one awaited call at a time ([interleave]). *)

From Stdlib Require Import ZArith Lia Ascii String DecimalString DecimalPos.
From stdpp Require Import gmap strings list fin_maps sorting.

Local Open Scope string_scope.
Local Open Scope list_scope.
Local Open Scope Z_scope.

(** ** Values *)

(** What [JSON.parse] produces. *)
#[warnings="-register-all"]
Inductive json : Type :=
| JNull
| JBool (b : bool)
| JNum (z : Z)
| JStr (s : string)
| JArr (l : list json)
| JObj (o : gmap string json).

(** The Number type, as far as it is modelled. *)
Inductive number : Type :=
| NaN
| Num (z : Z).

(** Values a handler holds in its variables and in the properties of the
    objects it builds: the JSON values, [undefined] (a property the request
    did not supply) and NaN (the result of arithmetic on a non-number). *)
Inductive value : Type :=
| VUndefined
| VNull
| VBoolean (b : bool)
| VNumber (n : number)
| VString (s : string)
| VArray (l : list json)
| VObject (o : gmap string json).

Definition of_json (j : json) : value :=
  match j with
  | JNull => VNull
  | JBool b => VBoolean b
  | JNum z => VNumber (Num z)
  | JStr s => VString s
  | JArr l => VArray l
  | JObj o => VObject o
  end.

(** [JSON.stringify] on a property value: a property whose value is
    [undefined] is left out, NaN is written as [null]. *)
Definition stringify_value (v : value) : option json :=
  match v with
  | VUndefined => None
  | VNull => Some JNull
  | VBoolean b => Some (JBool b)
  | VNumber NaN => Some JNull
  | VNumber (Num z) => Some (JNum z)
  | VString s => Some (JStr s)
  | VArray l => Some (JArr l)
  | VObject o => Some (JObj o)
  end.

(** [o.k] on a parsed object and on an object held in memory. *)
Definition prop (o : gmap string json) (k : string) : value :=
  match o !! k with
  | Some j => of_json j
  | None => VUndefined
  end.

Definition get (o : gmap string value) (k : string) : value :=
  match o !! k with
  | Some v => v
  | None => VUndefined
  end.

(** [JSON.parse] of a file and [JSON.stringify] of an array of records. *)
Definition parse_object (o : gmap string json) : gmap string value :=
  of_json <$> o.

Definition JSON_parse (data : list (gmap string json)) : list (gmap string value) :=
  parse_object <$> data.

Definition stringify_object (o : gmap string value) : gmap string json :=
  omap stringify_value o.

Definition JSON_stringify (l : list (gmap string value)) : list (gmap string json) :=
  stringify_object <$> l.

(** ** Coercions and operators of the language *)

(** [!v] is [negb (truthy v)]. *)
Definition truthy (v : value) : bool :=
  match v with
  | VUndefined | VNull => false
  | VBoolean b => b
  | VNumber NaN => false
  | VNumber (Num z) => negb (z =? 0)
  | VString s => negb (String.eqb s "")
  | VArray _ | VObject _ => true
  end.

(** [a === b].  Two arrays or objects are equal only when they are the same
    object; the operands compared by the handlers come out of two different
    [JSON.parse] calls, so they never are. *)
Definition strict_eq (a b : value) : bool :=
  match a, b with
  | VUndefined, VUndefined => true
  | VNull, VNull => true
  | VBoolean x, VBoolean y => Bool.eqb x y
  | VNumber (Num x), VNumber (Num y) => x =? y
  | VString x, VString y => String.eqb x y
  | _, _ => false
  end.

Definition MAX_SAFE : Z := 9007199254740992.

Definition safe (z : Z) : bool := (- MAX_SAFE <=? z) && (z <=? MAX_SAFE).

(** Number::toString, radix 10, for the integers of the model. *)
Definition Number_toString (n : number) : option string :=
  match n with
  | NaN => Some "NaN"
  | Num z => if safe z then Some (NilZero.string_of_int (Z.to_int z)) else None
  end.

Fixpoint join (l : list (option string)) : option string :=
  match l with
  | [] => Some ""
  | [s] => s
  | s :: l' =>
      match s, join l' with
      | Some a, Some b => Some (a +:+ "," +:+ b)
      | _, _ => None
      end
  end.

(** Whether an object has a property of its own named [toString].  Read
    from JSON the property is no function, and [Object.prototype.valueOf]
    answers the object itself, so the object has no primitive value: its
    conversion to a string or to a number throws a TypeError. *)
Definition own_toString (o : gmap string json) : bool :=
  bool_decide (is_Some (o !! "toString")).

(** Whether the conversion of a JSON value to a primitive throws: that of
    an object with its own [toString], and that of an array, which converts
    its elements in turn, when that of an element does. *)
Fixpoint raises (j : json) : bool :=
  match j with
  | JObj o => own_toString o
  | JArr l => existsb raises l
  | _ => false
  end.

(** The message of that TypeError. *)
Definition not_primitive : string := "Cannot convert object to primitive value".

(** ToString on a JSON value; an array is joined with commas, its [null]
    elements printing as the empty string.  The result is [None] where the
    conversion throws ([raises]) and where it leaves the model. *)
Fixpoint json_ToString (j : json) : option string :=
  match j with
  | JNull => Some "null"
  | JBool true => Some "true"
  | JBool false => Some "false"
  | JNum z => Number_toString (Num z)
  | JStr s => Some s
  | JArr l =>
      join (map (fun e => match e with JNull => Some "" | _ => json_ToString e end) l)
  | JObj o => if own_toString o then None else Some "[object Object]"
  end.

(** Whether ToString, ToNumber and ToPrimitive throw on a value. *)
Definition throws (v : value) : bool :=
  match v with
  | VArray l => raises (JArr l)
  | VObject o => raises (JObj o)
  | _ => false
  end.

Definition ToString (v : value) : option string :=
  match v with
  | VUndefined => Some "undefined"
  | VNumber n => Number_toString n
  | VNull => json_ToString JNull
  | VBoolean b => json_ToString (JBool b)
  | VString s => Some s
  | VArray l => json_ToString (JArr l)
  | VObject o => json_ToString (JObj o)
  end.

Definition code (a : ascii) : Z := Z.of_N (N_of_ascii a).

Definition is_white_space (a : ascii) : bool :=
  let c := code a in ((9 <=? c) && (c <=? 13)) || (c =? 32).

Definition is_ascii (a : ascii) : bool := code a <? 128.

(** The value of a character as a digit in radix [R], if it is one. *)
Definition digit_value (R : Z) (a : ascii) : option Z :=
  let c := code a in
  let d :=
    if (48 <=? c) && (c <=? 57) then c - 48
    else if (97 <=? c) && (c <=? 122) then c - 87
    else if (65 <=? c) && (c <=? 90) then c - 55
    else 36 in
  if d <? R then Some d else None.

Fixpoint trim_start (s : string) : string :=
  match s with
  | String a s' => if is_white_space a then trim_start s' else s
  | EmptyString => s
  end.

(** The longest prefix of digits, read in radix [R]; [None] if it is empty. *)
Fixpoint read_digits (R : Z) (acc : option Z) (s : string) : option Z :=
  match s with
  | String a s' =>
      match digit_value R a with
      | Some d => read_digits R (Some (default 0 acc * R + d)) s'
      | None => acc
      end
  | EmptyString => acc
  end.

Definition starts_with_0x (s : string) : bool :=
  match s with
  | String "0" (String "x" _) | String "0" (String "X" _) => true
  | _ => false
  end.

Definition drop2 (s : string) : string :=
  match s with
  | String _ (String _ s') => s'
  | _ => EmptyString
  end.

(** [parseInt(string, radix)] on a string; [radix = 0] stands for a radix
    that is absent. *)
Definition parseInt_string (s : string) (radix : Z) : option number :=
  let S := trim_start s in
  match S with
  | EmptyString => Some NaN
  | String a rest =>
      if negb (is_ascii a) then None
      else
        let sign := if Ascii.eqb a "-" then -1 else 1 in
        let S := if Ascii.eqb a "-" || Ascii.eqb a "+" then rest else S in
        if (radix =? 0) || ((2 <=? radix) && (radix <=? 36)) then
          let strip := ((radix =? 0) || (radix =? 16)) && starts_with_0x S in
          let R := if strip then 16 else if radix =? 0 then 10 else radix in
          let S := if strip then drop2 S else S in
          match read_digits R None S with
          | None => Some NaN
          | Some mathInt => if safe mathInt then Some (Num (sign * mathInt)) else None
          end
        else Some NaN
  end.

Definition parseInt (v : value) (radix : Z) : option number :=
  match ToString v with
  | Some s => parseInt_string s radix
  | None => None
  end.

Definition isNaN (n : number) : bool :=
  match n with NaN => true | Num _ => false end.

Definition number_lt (a b : number) : bool :=
  match a, b with
  | Num x, Num y => x <? y
  | _, _ => false
  end.

Definition number_le (a b : number) : bool :=
  match a, b with
  | Num x, Num y => x <=? y
  | _, _ => false
  end.

(** [a - b] on the integers; it is the difference of the doubles where
    the operands and the result are within the exact range ([exact]). *)
Definition number_sub (a b : number) : number :=
  match a, b with
  | Num x, Num y => Num (x - y)
  | _, _ => NaN
  end.

(** Whether a number is NaN or an integer of the exact range. *)
Definition exact (n : number) : bool :=
  match n with
  | NaN => true
  | Num z => safe z
  end.

Definition is_decimal_digit (a : ascii) : bool :=
  (48 <=? code a) && (code a <=? 57).

Fixpoint all_digits (s : string) : bool :=
  match s with
  | String a s' => is_decimal_digit a && all_digits s'
  | EmptyString => true
  end.

Definition string_rev (s : string) : string :=
  string_of_list_ascii (rev (list_ascii_of_string s)).

Definition trim (s : string) : string :=
  string_rev (trim_start (string_rev (trim_start s))).

(** StringToNumber.  Modelled: the empty or blank string (0), a signed run
    of decimal digits, and a text that cannot start a numeric literal (NaN).
    Anything else that starts like a literal (a fraction, an exponent, a
    [0x] prefix, [Infinity]) is outside the model, and so is a string with
    a non-ASCII byte (it may be white space to trim). *)
Definition StringToNumber (s : string) : option number :=
  if negb (forallb is_ascii (list_ascii_of_string s)) then None
  else
    match trim s with
    | EmptyString => Some (Num 0)
    | String a rest as S =>
        let body := if Ascii.eqb a "-" || Ascii.eqb a "+" then rest else S in
        match body with
        | EmptyString => Some NaN
        | String c _ =>
            if all_digits body then
              match read_digits 10 None body with
              | Some m =>
                  if safe m then Some (Num (if Ascii.eqb a "-" then - m else m))
                  else None
              | None => Some NaN
              end
            else if is_decimal_digit c || Ascii.eqb c "." || Ascii.eqb c "I" then None
            else Some NaN
        end
    end.

(** ToNumber; an array or an object goes through its string form.  The
    result is [None] where the conversion throws ([throws]) and where it
    leaves the model. *)
Definition ToNumber (v : value) : option number :=
  match v with
  | VUndefined => Some NaN
  | VNull => Some (Num 0)
  | VBoolean b => Some (Num (if b then 1 else 0))
  | VNumber n => Some n
  | VString s => StringToNumber s
  | VArray _ | VObject _ =>
      match ToString v with
      | Some s => StringToNumber s
      | None => None
      end
  end.

(** *** Dates *)

Definition is_leap (y : Z) : bool :=
  ((y mod 4 =? 0) && negb (y mod 100 =? 0)) || (y mod 400 =? 0).

Definition days_in_month (y m : Z) : Z :=
  if m =? 2 then (if is_leap y then 29 else 28)
  else if (m =? 4) || (m =? 6) || (m =? 9) || (m =? 11) then 30
  else 31.

(** Days between 1970-01-01 and the civil date [y]-[m]-[d]. *)
Definition days_from_civil (y m d : Z) : Z :=
  let y := if m <=? 2 then y - 1 else y in
  let era := y / 400 in
  let yoe := y - era * 400 in
  let doy := (153 * ((m + 9) mod 12) + 2) / 5 + d - 1 in
  let doe := yoe * 365 + yoe / 4 - yoe / 100 + doy in
  era * 146097 + doe - 719468.

Definition msPerDay : Z := 86400000.

Definition digit (a : ascii) : Z := code a - 48.

(** [Date.parse].  Modelled: the empty string (not a date) and the date-only
    form [YYYY-MM-DD] of a day that exists, which the language reads as
    midnight UTC.  What an engine makes of any other text is outside the
    model. *)
Definition Date_parse (s : string) : option number :=
  match s with
  | EmptyString => Some NaN
  | String y1 (String y2 (String y3 (String y4 (String "-" (String m1 (String m2
      (String "-" (String d1 (String d2 EmptyString))))))))) =>
      if forallb is_decimal_digit [y1; y2; y3; y4; m1; m2; d1; d2] then
        let y := ((digit y1 * 10 + digit y2) * 10 + digit y3) * 10 + digit y4 in
        let m := digit m1 * 10 + digit m2 in
        let d := digit d1 * 10 + digit d2 in
        if (1 <=? m) && (m <=? 12) && (1 <=? d) && (d <=? days_in_month y m)
        then Some (Num (days_from_civil y m d * msPerDay))
        else None
      else None
  | _ => None
  end.

Definition TimeClip (n : number) : number :=
  match n with
  | Num z => if Z.abs z <=? 8640000000000000 then Num z else NaN
  | NaN => NaN
  end.

(** The time value of [new Date(v)]: a string is parsed, anything else is
    converted to a number of milliseconds. *)
Definition Date_value (v : value) : option number :=
  match v with
  | VString s => Date_parse s
  | VArray _ | VObject _ =>
      match ToString v with
      | Some s => Date_parse s
      | None => None
      end
  | _ =>
      match ToNumber v with
      | Some n => Some (TimeClip n)
      | None => None
      end
  end.

(** *** Arrays *)

(** [Array.prototype.sort(comparefn)].  The language asks for a stable sort
    and fixes the result when the comparator is consistent; it is modelled
    by stable insertion.  A comparator result of NaN counts as 0, and an
    element moves behind another only on a positive result.  Where the
    comparator is not consistent the language leaves the order to the
    engine; the insertion agrees with the engine's sort on an array whose
    neighbours all compare as 0 or NaN (both leave it as it is), and on the
    others only that the result is a rearrangement is to be relied on. *)
Definition SortCompare {A} (comparefn : A → A → number) (x y : A) : Z :=
  match comparefn x y with
  | NaN => 0
  | Num v => v
  end.

Fixpoint sort_insert {A} (comparefn : A → A → number) (x : A) (l : list A) : list A :=
  match l with
  | [] => [x]
  | y :: l' =>
      if 0 <? SortCompare comparefn x y then y :: sort_insert comparefn x l'
      else x :: l
  end.

Definition Array_sort {A} (comparefn : A → A → number) (l : list A) : list A :=
  foldr (sort_insert comparefn) [] l.

(** [arr[index] = x] as the transaction routes reach it: [index] is NaN or
    an integer within the array.  Under NaN the assignment creates a
    property named "NaN" and no element changes. *)
Definition Array_set {A} (l : list A) (index : number) (x : A) : list A :=
  match index with
  | Num z => <[Z.to_nat z := x]> l
  | NaN => l
  end.

Definition Array_get {A} (l : list A) (index : number) : option A :=
  match index with
  | Num z => if z <? 0 then None else l !! Z.to_nat z
  | NaN => None
  end.

(** [arr.splice(index, 1)]: the start is NaN taken as 0, a negative integer
    counted from the end, and clamped to the array. *)
Definition Array_splice1 {A} (l : list A) (index : number) : list A :=
  let len := Z.of_nat (length l) in
  let start :=
    match index with
    | NaN => 0
    | Num z => if z <? 0 then Z.max (len + z) 0 else Z.min z len
    end in
  delete (Z.to_nat start) l.

(** ** Responses, files and handler programs *)

Record Response : Type := { status : Z; payload : option json }.

(** [res.status(c).json(o)] and [res.status(c).send()]. *)
Definition json_response (c : Z) (o : gmap string value) : Response :=
  {| status := c; payload := Some (JObj (stringify_object o)) |}.

Definition array_response (c : Z) (l : list (gmap string value)) : Response :=
  {| status := c; payload := Some (JArr (JObj <$> JSON_stringify l)) |}.

Definition empty_response (c : Z) : Response :=
  {| status := c; payload := None |}.

Definition error_response (c : Z) (msg : string) : Response :=
  json_response c {[ "error" := VString msg ]}.

Inductive file : Type := ITEMS_FILE | TRANSACTIONS_FILE.

(** A handler body: synchronous code between the awaited [fs] calls.
    [Throw e] is an error with message [e] thrown by that code, and
    [Unmodelled] marks an input on which a coercion left the model. *)
Inductive Fs (R : Type) : Type :=
| Done (r : R)
| Throw (e : string)
| Unmodelled
| ReadFile (f : file) (k : list (gmap string json) → Fs R)
| WriteFile (f : file) (data : list (gmap string json)) (k : Fs R).

Arguments Done {R} r.
Arguments Throw {R} e.
Arguments Unmodelled {R}.
Arguments ReadFile {R} f k.
Arguments WriteFile {R} f data k.

Definition modelled {A R} (o : option A) (k : A → Fs R) : Fs R :=
  match o with
  | Some a => k a
  | None => Unmodelled
  end.

Notation "'let?' x := o 'in' k" := (modelled o (fun x => k))
  (at level 10, x name, o at level 100, k at level 200).

(** A conversion that throws a TypeError when [thrown]. *)
Definition convert {A R} (thrown : bool) (o : option A) (k : A → Fs R) : Fs R :=
  if thrown then Throw not_primitive else modelled o k.

Notation "'let?' x := o 'unless' t 'in' k" := (convert t o (fun x => k))
  (at level 10, x name, o at level 100, t at level 100, k at level 200).

(** A route handler: the body of its [try] and its [catch], which answers
    from the message of the error thrown in the body, by a failed [fs] call
    or by a conversion. *)
Record Handler : Type := { body : Fs Response; catch : string → Response }.

Record World : Type := {
  items_file : list (gmap string json);
  transactions_file : list (gmap string json)
}.

Definition read (w : World) (f : file) : list (gmap string json) :=
  match f with
  | ITEMS_FILE => items_file w
  | TRANSACTIONS_FILE => transactions_file w
  end.

Definition write (w : World) (f : file) (data : list (gmap string json)) : World :=
  match f with
  | ITEMS_FILE => {| items_file := data; transactions_file := transactions_file w |}
  | TRANSACTIONS_FILE => {| items_file := items_file w; transactions_file := data |}
  end.

(** Which of the [fs] calls of a request fail: [faults n] is [None] when
    the call number [n] succeeds and [Some e] when it throws an error with
    message [e]. *)
Definition no_faults : nat → option string := λ _, None.

Definition later (faults : nat → option string) : nat → option string :=
  λ n, faults (S n).

(** Running a body to its end, one request at a time.  A failed write
    leaves the file as it was.  The result is [None] on an unmodelled input,
    else the files and either the error thrown or the response. *)
Fixpoint run {R} (p : Fs R) (faults : nat → option string) (w : World)
  : option (World * (string + R)) :=
  match p with
  | Done r => Some (w, inr r)
  | Throw e => Some (w, inl e)
  | Unmodelled => None
  | ReadFile f k =>
      match faults 0%nat with
      | Some e => Some (w, inl e)
      | None => run (k (read w f)) (later faults) w
      end
  | WriteFile f data k =>
      match faults 0%nat with
      | Some e => Some (w, inl e)
      | None => run k (later faults) (write w f data)
      end
  end.

Definition serve (h : Handler) (faults : nat → option string) (w : World)
  : option (World * Response) :=
  match run (body h) faults w with
  | Some (w', inr r) => Some (w', r)
  | Some (w', inl e) => Some (w', catch h e)
  | None => None
  end.

(** ** The routes *)

Definition name_is (name : value) (item : gmap string value) : Prop :=
  strict_eq (get item "name") name = true.

#[global] Instance name_is_dec name item : Decision (name_is name item).
Proof. unfold name_is. apply _. Defined.

Definition has_name (name : string) (o : gmap string json) : Prop :=
  name_is (VString name) (parse_object o).

#[global] Instance has_name_dec name o : Decision (has_name name o).
Proof. unfold has_name. apply _. Defined.

(** The stored form of an item after [item.amount = n]. *)
Definition set_amount (n : number) (o : gmap string json) : gmap string json :=
  match stringify_value (VNumber n) with
  | Some j => <["amount" := j]> o
  | None => o
  end.

(** [GET /items] *)
Definition get_items : Handler :=
  {| body :=
       ReadFile ITEMS_FILE (fun data =>
       Done (array_response 200 (JSON_parse data)));
     catch := fun _ => error_response 500 "Error reading items" |}.

(** [POST /items]; [now] is what [Date.now()] returns. *)
Definition post_items (req_body : gmap string json) (now : Z) : Handler :=
  {| body :=
       ReadFile ITEMS_FILE (fun data =>
       let items := JSON_parse data in
       let newItem : gmap string value :=
         {[ "id" := VNumber (Num now);
            "name" := prop req_body "name";
            "amount" := prop req_body "amount" ]} in
       let items := items ++ [newItem] in
       WriteFile ITEMS_FILE (JSON_stringify items)
       (Done (json_response 201 newItem)));
     catch := fun _ => error_response 500 "Error creating item" |}.

(** [PUT /items/:name] *)
Definition put_items (name : string) (req_body : gmap string json) : Handler :=
  {| body :=
       ReadFile ITEMS_FILE (fun data =>
       let items := JSON_parse data in
       match list_find (name_is (VString name)) items with
       | None => Done (error_response 404 "Item not found")
       | Some (index, item) =>
           let merged := parse_object req_body ∪ item in
           let items := <[index := merged]> items in
           WriteFile ITEMS_FILE (JSON_stringify items)
           (Done (json_response 200 merged))
       end);
     catch := fun _ => error_response 500 "Error updating item" |}.

(** [DELETE /items/:name] *)
Definition delete_items (name : string) : Handler :=
  {| body :=
       ReadFile ITEMS_FILE (fun data =>
       let items := JSON_parse data in
       let items := filter (fun item => ¬ name_is (VString name) item) items in
       WriteFile ITEMS_FILE (JSON_stringify items)
       (Done (empty_response 204)));
     catch := fun _ => error_response 500 "Error deleting item" |}.

(** [POST /take-item], its last part: the ledger entry is appended and the
    response is built from the item as decremented.  The message is put
    together after both writes; it is there that a [personName] without a
    primitive value throws. *)
Definition record_transaction (personName itemName : value) (requestedAmount : number)
    (date : value) (item : gmap string value) : Fs Response :=
  ReadFile TRANSACTIONS_FILE (fun data =>
  let transactions := JSON_parse data in
  let transactions := transactions ++
    [ {[ "personName" := personName;
         "itemName" := itemName;
         "amount" := VNumber requestedAmount;
         "date" := if truthy date then date else VString "" ]} ] in
  WriteFile TRANSACTIONS_FILE (JSON_stringify transactions)
  (let? person := ToString personName unless throws personName in
   let? taken := ToString (VNumber requestedAmount) in
   let? name := ToString (get item "name") unless throws (get item "name") in
   let message := person +:+ " took " +:+ taken +:+ " " +:+ name +:+ "(s)" in
   if strict_eq (get item "amount") (VNumber (Num 0)) then
     Done (json_response 200
       {[ "message" := VString (message +:+ ". " +:+ name +:+ " is now out of stock!");
          "remaining" := get item "amount" ]})
   else
     Done (json_response 200
       {[ "message" := VString message;
          "remaining" := get item "amount" ]}))).

(** [POST /take-item].  [parseInt] converts the amount to a string and the
    comparison converts the stock to a number; either conversion can throw,
    before anything is written. *)
Definition take_item (req_body : gmap string json) : Handler :=
  {| body :=
       let personName := prop req_body "personName" in
       let itemName := prop req_body "itemName" in
       let amount := prop req_body "amount" in
       let date := prop req_body "date" in
       if negb (truthy itemName) || negb (truthy amount) then
         Done (error_response 400 "Missing required fields")
       else
       let personName := if negb (truthy personName) then VString "System" else personName in
       ReadFile ITEMS_FILE (fun data =>
       let items := JSON_parse data in
       match list_find (name_is itemName) items with
       | None => Done (error_response 404 "Item not found")
       | Some (itemIndex, item) =>
           let? requestedAmount := parseInt amount 10 unless throws amount in
           if isNaN requestedAmount || number_le requestedAmount (Num 0) then
             Done (error_response 400 "Invalid amount")
           else
           let? stock := ToNumber (get item "amount") unless throws (get item "amount") in
           if number_lt stock requestedAmount then
             Done (error_response 400 "Insufficient amount")
           else
           let remaining := number_sub stock requestedAmount in
           if negb (exact stock && exact remaining) then Unmodelled
           else
           let item := <["amount" := VNumber remaining]> item in
           let items := <[itemIndex := item]> items in
           WriteFile ITEMS_FILE (JSON_stringify items)
           (record_transaction personName itemName requestedAmount date item)
       end);
     catch := fun e => error_response 500 ("Error processing transaction " +:+ e) |}.

(** The comparator of [GET /transactions]:
    [(a, b) => new Date(b.date) - new Date(a.date)].  Time values are
    within the exact range; the difference of two of them may lie beyond it
    and be rounded, but it keeps its sign, and the sort reads nothing
    else. *)
Definition by_date (a b : gmap string value) : option number :=
  match Date_value (get b "date"), Date_value (get a "date") with
  | Some tb, Some ta => Some (number_sub tb ta)
  | _, _ => None
  end.

Definition date_modelled (t : gmap string value) : bool :=
  bool_decide (is_Some (Date_value (get t "date"))).

(** [GET /transactions].  The sort of two entries or more compares every
    entry with another at least once, and a comparison makes a [Date] of
    both dates: it throws when one of them has no primitive value. *)
Definition get_transactions : Handler :=
  {| body :=
       ReadFile TRANSACTIONS_FILE (fun data =>
       let transactions := JSON_parse data in
       if (2 <=? length transactions)%nat
          && existsb (fun t => throws (get t "date")) transactions
       then Throw not_primitive
       else
       if forallb date_modelled transactions then
         Done (array_response 200
           (Array_sort (fun a b => default NaN (by_date a b)) transactions))
       else Unmodelled);
     catch := fun _ => error_response 500 "Error reading transactions" |}.

Definition out_of_bounds (index : number) (len : nat) : bool :=
  number_lt index (Num 0) || number_le (Num (Z.of_nat len)) index.

(** [PUT /transactions/:index] *)
Definition put_transactions (index : string) (req_body : gmap string json) : Handler :=
  {| body :=
       ReadFile TRANSACTIONS_FILE (fun data =>
       let transactions := JSON_parse data in
       let? index := parseInt (VString index) 0 in
       if out_of_bounds index (length transactions) then
         Done (error_response 404 "Transaction not found")
       else
       let merged := parse_object req_body ∪ default ∅ (Array_get transactions index) in
       let transactions := Array_set transactions index merged in
       WriteFile TRANSACTIONS_FILE (JSON_stringify transactions)
       (Done (json_response 200 merged)));
     catch := fun _ => error_response 500 "Error updating transaction" |}.

(** [DELETE /transactions/:index] *)
Definition delete_transactions (index : string) : Handler :=
  {| body :=
       ReadFile TRANSACTIONS_FILE (fun data =>
       let transactions := JSON_parse data in
       let? index := parseInt (VString index) 0 in
       if out_of_bounds index (length transactions) then
         Done (error_response 404 "Transaction not found")
       else
       let transactions := Array_splice1 transactions index in
       WriteFile TRANSACTIONS_FILE (JSON_stringify transactions)
       (Done (empty_response 204)));
     catch := fun _ => error_response 500 "Error deleting transaction" |}.

(** ** Sequences of requests *)

Inductive request : Type :=
| ListItems
| Create (req_body : gmap string json) (now : Z)
| Update (name : string) (req_body : gmap string json)
| Delete (name : string)
| Take (req_body : gmap string json)
| ListTransactions
| UpdateTransaction (index : string) (req_body : gmap string json)
| DeleteTransaction (index : string).

Definition handler (q : request) : Handler :=
  match q with
  | ListItems => get_items
  | Create req_body now => post_items req_body now
  | Update name req_body => put_items name req_body
  | Delete name => delete_items name
  | Take req_body => take_item req_body
  | ListTransactions => get_transactions
  | UpdateTransaction index req_body => put_transactions index req_body
  | DeleteTransaction index => delete_transactions index
  end.

(** Requests served one after the other, each with its own failures. *)
Fixpoint serve_all (qs : list (request * (nat → option string))) (w : World)
  : option (World * list Response) :=
  match qs with
  | [] => Some (w, [])
  | (q, faults) :: qs' =>
      match serve (handler q) faults w with
      | Some (w1, r) =>
          match serve_all qs' w1 with
          | Some (w2, rs) => Some (w2, r :: rs)
          | None => None
          end
      | None => None
      end
  end.

(** ** Requests in flight together *)

(** The pending [fs] call of a running handler completes (here no call
    fails) and the handler runs on to its next call or to its answer. *)
Definition step {R} (p : Fs R) (w : World) : option (Fs R * World) :=
  match p with
  | ReadFile f k => Some (k (read w f), w)
  | WriteFile f data k => Some (k, write w f data)
  | Done _ | Throw _ | Unmodelled => None
  end.

(** Handlers started together.  The schedule names, turn by turn, the
    request whose pending call completes next; a turn given to a request
    that has already answered is skipped. *)
Fixpoint interleave {R} (schedule : list nat) (running : list (Fs R)) (w : World)
  : list (Fs R) * World :=
  match schedule with
  | [] => (running, w)
  | i :: schedule' =>
      match running !! i ≫= λ p, step p w with
      | Some (p', w') => interleave schedule' (<[i := p']> running) w'
      | None => interleave schedule' running w
      end
  end.

(** ** What the specification speaks of *)

(** The stored [amount] and [id] of every item, in order. *)
Definition amounts (w : World) : list (option json) :=
  (λ o : gmap string json, o !! "amount") <$> items_file w.

Definition ids (w : World) : list (option json) :=
  (λ o : gmap string json, o !! "id") <$> items_file w.

(** The invariant of the specification: every stored amount is an integer
    and is not negative. *)
Definition stock_ok (o : gmap string json) : Prop :=
  ∃ z, o !! "amount" = Some (JNum z) ∧ 0 ≤ z.

Definition amounts_nonneg (w : World) : Prop := Forall stock_ok (items_file w).

(** What the invariant needs from a request: a create carries such an
    amount, an update carries such an amount or none. *)
Definition supplies_amount_ok (q : request) : Prop :=
  match q with
  | Create req_body _ => stock_ok req_body
  | Update _ req_body => req_body !! "amount" = None ∨ stock_ok req_body
  | _ => True
  end.



(** The time value of the date of a stored ledger entry. *)
Definition entry_time (o : gmap string json) : option number :=
  Date_value (prop o "date").

Definition time_of (o : gmap string json) : Z :=
  match entry_time o with
  | Some (Num t) => t
  | _ => 0
  end.

(** On the elements of [l] the comparator is the difference of the keys,
    larger keys first. *)
Definition by_key {A} (comparefn : A → A → number) (key : A → Z) (l : list A) : Prop :=
  ∀ x y, x ∈ l → y ∈ l → SortCompare comparefn x y = key y - key x.

(** ** Sample states and requests *)

Definition empty_store : World := {| items_file := []; transactions_file := [] |}.

Definition widget_store : World :=
  {| items_file :=
       [ {[ "id" := JNum 1700000000000; "name" := JStr "Widget"; "amount" := JNum 10 ]} ];
     transactions_file := [] |}.

Definition two_entry_ledger : World :=
  {| items_file := [];
     transactions_file :=
       [ {[ "personName" := JStr "Alice"; "itemName" := JStr "Widget";
            "amount" := JNum 3; "date" := JStr "2024-01-01" ]};
         {[ "personName" := JStr "Bob"; "itemName" := JStr "Widget";
            "amount" := JNum 2; "date" := JStr "" ]} ] |}.

(** A ledger as three takes leave it: one dated 2024, one without a date
    (stored as the empty string), one dated 2025. *)
Definition mixed_ledger : World :=
  {| items_file := [];
     transactions_file :=
       [ {[ "personName" := JStr "Alice"; "itemName" := JStr "Widget";
            "amount" := JNum 1; "date" := JStr "2024-01-01" ]};
         {[ "personName" := JStr "System"; "itemName" := JStr "Widget";
            "amount" := JNum 1; "date" := JStr "" ]};
         {[ "personName" := JStr "Bob"; "itemName" := JStr "Widget";
            "amount" := JNum 1; "date" := JStr "2025-01-01" ]} ] |}.

Definition create_widgets : gmap string json :=
  {[ "name" := JStr "Widget"; "amount" := JNum 10 ]}.

Definition create_gadgets : gmap string json :=
  {[ "name" := JStr "Gadget"; "amount" := JNum 2 ]}.

Definition create_negative : gmap string json :=
  {[ "name" := JStr "Widget"; "amount" := JNum (-5) ]}.

Definition take_three_widgets : gmap string json :=
  {[ "personName" := JStr "Alice"; "itemName" := JStr "Widget"; "amount" := JNum 3 ]}.


Definition take_unknown_item_bad_amount : gmap string json :=
  {[ "itemName" := JStr "Gadget"; "amount" := JStr "abc" ]}.

(** The fourth [fs] call of a request, for take-item the write of the
    ledger, fails; the others succeed. *)
Definition fourth_call_fails : nat → option string :=
  λ n, if (n =? 3)%nat then Some "EIO: i/o error" else None.

(** A create, a take, an update of the amount, a take whose ledger write
    fails, and a take of more than is left. *)
Definition sample_session : list (request * (nat → option string)) :=
  [ (Create create_widgets 1700000000000, no_faults);
    (Take take_three_widgets, no_faults);
    (Update "Widget" {[ "amount" := JNum 4 ]}, no_faults);
    (Take take_three_widgets, fourth_call_fails);
    (Take take_three_widgets, no_faults) ].

(** Two creates that read the same millisecond off the clock. *)
Definition two_creates_same_ms : list (request * (nat → option string)) :=
  [ (Create create_widgets 1700000000000, no_faults);
    (Create create_gadgets 1700000000000, no_faults) ].


(** The second [fs] call of a request, for the item routes the write of
    the items, fails; the others succeed. *)
Definition second_call_fails : nat → option string :=
  λ n, if (n =? 1)%nat then Some "ENOSPC: no space left on device" else None.

(** [v || d] on a property of the request, as it is stored: the property
    when it is there and truthy, else the default. *)
Definition or_else (o : option json) (d : json) : json :=
  match o with
  | Some j => if truthy (of_json j) then j else d
  | None => d
  end.

(** The message of a successful take. *)
Definition took_message (person : string) (requested : Z) (name : string)
    (remaining : Z) : string :=
  let message :=
    person +:+ " took " +:+ NilZero.string_of_int (Z.to_int requested) +:+ " "
    +:+ name +:+ "(s)" in
  if remaining =? 0 then message +:+ ". " +:+ name +:+ " is now out of stock!"
  else message.

(** A ledger in which every entry is dated, two of them on the same day. *)
Definition dated_ledger : World :=
  {| items_file := [];
     transactions_file :=
       [ {[ "personName" := JStr "Alice"; "itemName" := JStr "Widget";
            "amount" := JNum 1; "date" := JStr "2024-01-01" ]};
         {[ "personName" := JStr "Bob"; "itemName" := JStr "Widget";
            "amount" := JNum 2; "date" := JStr "2025-01-01" ]};
         {[ "personName" := JStr "Carol"; "itemName" := JStr "Widget";
            "amount" := JNum 3; "date" := JStr "2024-01-01" ]} ] |}.

(** A ledger as two takes without a date leave it. *)
Definition undated_ledger : World :=
  {| items_file := [];
     transactions_file :=
       [ {[ "personName" := JStr "Alice"; "itemName" := JStr "Widget";
            "amount" := JNum 1; "date" := JStr "" ]};
         {[ "personName" := JStr "System"; "itemName" := JStr "Widget";
            "amount" := JNum 2; "date" := JStr "" ]} ] |}.

(** A request whose [personName] is an object with a [toString] property. *)
Definition take_three_unsigned : gmap string json :=
  {[ "personName" := JObj {[ "toString" := JNum 1 ]};
     "itemName" := JStr "Widget"; "amount" := JNum 3 ]}.

(** A ledger of two entries, the date of the second one an object with a
    [toString] property, as a take-item with such a date leaves it. *)
Definition undatable_ledger : World :=
  {| items_file := [];
     transactions_file :=
       [ {[ "personName" := JStr "Alice"; "itemName" := JStr "Widget";
            "amount" := JNum 1; "date" := JStr "2024-01-01" ]};
         {[ "personName" := JStr "Bob"; "itemName" := JStr "Widget";
            "amount" := JNum 2; "date" := JObj {[ "toString" := JNum 1 ]} ]} ] |}.

(** ** The earlier revision of take-item ([app.js]) *)

(** ToPrimitive with hint number: an array or an object becomes its string
    form, any other value is primitive already.  The result is [None]
    where the conversion throws ([throws]) and where it leaves the model. *)
Definition ToPrimitive (v : value) : option value :=
  match v with
  | VArray _ | VObject _ => VString <$> ToString v
  | _ => Some v
  end.

(** [a < b].  Two strings are compared as strings, by their code units
    (modelled for ASCII strings, where these are the bytes); in every other
    case both sides are made numbers, and a comparison with NaN is false.
    The result is [None] where a conversion throws ([throws]) and where a
    number lies beyond the exact range. *)
Definition less_than (a b : value) : option bool :=
  pa ← ToPrimitive a;
  pb ← ToPrimitive b;
  match pa, pb with
  | VString x, VString y =>
      if forallb is_ascii (list_ascii_of_string x)
         && forallb is_ascii (list_ascii_of_string y)
      then Some (String.ltb x y)
      else None
  | _, _ =>
      na ← ToNumber pa;
      nb ← ToNumber pb;
      if exact na && exact nb then Some (number_lt na nb) else None
  end.

(** [POST /take-item] as [app.js] has it: the amount of the request is
    used as it comes, without [parseInt] and without a check of its sign;
    [timestamp] is what [new Date().toISOString()] returns.  The comparison
    converts the stock, then the amount, and throws when either has no
    primitive value; the message, put together after both writes, throws
    on such a [personName]. *)
Definition take_item_v1 (req_body : gmap string json) (timestamp : string) : Handler :=
  {| body :=
       let personName := prop req_body "personName" in
       let itemName := prop req_body "itemName" in
       let amount := prop req_body "amount" in
       if negb (truthy itemName) || negb (truthy amount) then
         Done (error_response 400 "Missing required fields")
       else
       let personName := if negb (truthy personName) then VString "System" else personName in
       ReadFile ITEMS_FILE (fun data =>
       let items := JSON_parse data in
       match list_find (name_is itemName) items with
       | None => Done (error_response 404 "Item not found")
       | Some (itemIndex, item) =>
           let? short := less_than (get item "amount") amount
             unless throws (get item "amount") || throws amount in
           if short then
             Done (error_response 400 "Insufficient amount")
           else
           let? stock := ToNumber (get item "amount") in
           let? taken := ToNumber amount in
           let remaining := number_sub stock taken in
           if negb (exact stock && exact taken && exact remaining) then Unmodelled
           else
           let item := <["amount" := VNumber remaining]> item in
           let items := <[itemIndex := item]> items in
           WriteFile ITEMS_FILE (JSON_stringify items)
           (ReadFile TRANSACTIONS_FILE (fun data =>
            let transactions := JSON_parse data in
            let transactions := transactions ++
              [ {[ "personName" := personName;
                   "itemName" := itemName;
                   "amount" := amount;
                   "timestamp" := VString timestamp ]} ] in
            WriteFile TRANSACTIONS_FILE (JSON_stringify transactions)
            (let? person := ToString personName unless throws personName in
             let? taken := ToString amount unless throws amount in
             let? name := ToString (get item "name") unless throws (get item "name") in
             Done (json_response 200
               {[ "message" :=
                    VString (person +:+ " took " +:+ taken +:+ " " +:+ name +:+ "(s)");
                  "remaining" := get item "amount" ]}))))
       end);
     catch := fun e => error_response 500 ("Error processing transaction " +:+ e) |}.

(** [GET /transactions] as [app.js] has it: the ledger as stored. *)
Definition get_transactions_v1 : Handler :=
  {| body :=
       ReadFile TRANSACTIONS_FILE (fun data =>
       Done (array_response 200 (JSON_parse data)));
     catch := fun _ => error_response 500 "Error reading transactions" |}.

(** ** What is written is what is read back *)

Lemma stringify_of_json (j : json) : stringify_value (of_json j) = Some j.
Proof. by destruct j. Qed.

Lemma stringify_parse_object (o : gmap string json) :
  stringify_object (parse_object o) = o.
Proof.
  apply map_eq; intros k. unfold stringify_object, parse_object.
  rewrite lookup_omap, lookup_fmap.
  destruct (o !! k) as [j|]; simpl; [apply stringify_of_json | done].
Qed.

Lemma stringify_parse (data : list (gmap string json)) :
  JSON_stringify (JSON_parse data) = data.
Proof.
  unfold JSON_stringify, JSON_parse. rewrite <- list_fmap_compose.
  rewrite <- (list_fmap_id data) at 2. apply list_fmap_ext.
  intros _ o _. apply stringify_parse_object.
Qed.

Lemma get_parsed (o : gmap string json) (k : string) :
  get (parse_object o) k = prop o k.
Proof. unfold get, prop, parse_object. rewrite lookup_fmap. by destruct (o !! k). Qed.

Lemma lookup_stringify_object (o : gmap string value) (k : string) :
  stringify_object o !! k = stringify_value (get o k).
Proof. unfold stringify_object, get. rewrite lookup_omap. by destruct (o !! k). Qed.

Lemma stringify_prop (o : gmap string json) (k : string) :
  stringify_value (prop o k) = o !! k.
Proof. unfold prop. destruct (o !! k); [apply stringify_of_json | done]. Qed.

Lemma lookup_parsed (data : list (gmap string json)) (i : nat) (item : gmap string value) :
  JSON_parse data !! i = Some item ↔ ∃ o, data !! i = Some o ∧ item = parse_object o.
Proof.
  unfold JSON_parse. rewrite list_lookup_fmap.
  destruct (data !! i) as [o|]; simpl; split.
  - intros [= <-]. eauto.
  - by intros (? & [= <-] & ->).
  - done.
  - by intros (? & ? & _).
Qed.

Lemma length_parsed (data : list (gmap string json)) :
  length (JSON_parse data) = length data.
Proof. unfold JSON_parse. apply length_fmap. Qed.

Lemma stringify_filter (P : gmap string value → Prop) `{!∀ o, Decision (P o)}
    (data : list (gmap string json)) :
  JSON_stringify (filter P (JSON_parse data)) = filter (λ o, P (parse_object o)) data.
Proof.
  induction data as [|o data IH]; [done|].
  unfold JSON_parse in *. rewrite fmap_cons, !filter_cons.
  destruct (decide (P (parse_object o))); [|done].
  unfold JSON_stringify in *. rewrite fmap_cons, stringify_parse_object.
  by f_equal.
Qed.

Lemma stringify_insert (data : list (gmap string json)) (i : nat) (o : gmap string value) :
  JSON_stringify (<[i := o]> (JSON_parse data)) = <[i := stringify_object o]> data.
Proof.
  unfold JSON_stringify. rewrite list_fmap_insert.
  fold (JSON_stringify (JSON_parse data)). by rewrite stringify_parse.
Qed.

Lemma stringify_delete (data : list (gmap string json)) (i : nat) :
  JSON_stringify (delete i (JSON_parse data)) = delete i data.
Proof.
  unfold JSON_stringify. rewrite list_fmap_delete.
  fold (JSON_stringify (JSON_parse data)). by rewrite stringify_parse.
Qed.

Lemma stringify_merge (b t : gmap string json) :
  stringify_object (parse_object b ∪ parse_object t) = b ∪ t.
Proof.
  unfold parse_object. rewrite <- map_fmap_union.
  apply stringify_parse_object.
Qed.

Lemma stringify_set_amount (data : list (gmap string json)) (i : nat)
    (item : gmap string value) (n : number) :
  JSON_parse data !! i = Some item →
  JSON_stringify (<[i := <["amount" := VNumber n]> item]> (JSON_parse data))
  = alter (set_amount n) i data.
Proof.
  intros (o & Ho & ->)%lookup_parsed.
  unfold JSON_stringify. rewrite list_fmap_insert.
  fold (JSON_stringify (JSON_parse data)). rewrite stringify_parse.
  assert (stringify_object (<["amount" := VNumber n]> (parse_object o)) = set_amount n o) as ->.
  { unfold set_amount, stringify_object.
    destruct n; simpl; (erewrite omap_insert_Some; [|done]);
      by fold (stringify_object (parse_object o)); rewrite stringify_parse_object. }
  apply list_eq; intros j. destruct (decide (i = j)) as [<-|].
  - rewrite list_lookup_alter_eq, Ho, list_lookup_insert_eq; [done|].
    by eapply lookup_lt_Some.
  - by rewrite list_lookup_alter_ne, list_lookup_insert_ne.
Qed.


Lemma set_amount_keeps_id (n : number) (o : gmap string json) :
  set_amount n o !! "id" = o !! "id".
Proof. unfold set_amount. destruct n; cbn; by rewrite lookup_insert_ne. Qed.

Lemma error_response_payload (c : Z) (msg : string) :
  error_response c msg = {| status := c; payload := Some (JObj {[ "error" := JStr msg ]}) |}.
Proof.
  unfold error_response, json_response, stringify_object.
  by erewrite omap_singleton_Some.
Qed.

Lemma name_is_string (name : string) (item : gmap string value) :
  name_is (VString name) item ↔ get item "name" = VString name.
Proof.
  unfold name_is. destruct (get item "name") as [| |b|[|z]|s|l|o]; simpl;
    try (split; [discriminate|intros [=]]).
  rewrite String.eqb_eq. split; [by intros -> | by intros [= ->]].
Qed.

Lemma has_name_lookup (name : string) (o : gmap string json) :
  has_name name o ↔ o !! "name" = Some (JStr name).
Proof.
  unfold has_name. rewrite name_is_string, get_parsed. unfold prop.
  destruct (o !! "name") as [[]|]; simpl; split; intros [=]; by subst.
Qed.

(** ** The sort *)

Section sort.
Context {A : Type} (comparefn : A → A → number).

Lemma sort_insert_perm (x : A) (l : list A) : sort_insert comparefn x l ≡ₚ x :: l.
Proof.
  induction l as [|y l IH]; [done|]. cbn.
  destruct (0 <? SortCompare comparefn x y); [|done].
  by rewrite IH, Permutation_swap.
Qed.

Lemma Array_sort_cons (x : A) (l : list A) :
  Array_sort comparefn (x :: l) = sort_insert comparefn x (Array_sort comparefn l).
Proof. done. Qed.

Lemma Array_sort_perm (l : list A) : Array_sort comparefn l ≡ₚ l.
Proof.
  induction l as [|x l IH]; [done|].
  by rewrite Array_sort_cons, sort_insert_perm, IH.
Qed.

(** From here on the comparator is a difference of keys. *)
Context (key : A → Z).

Lemma by_key_perm (l l' : list A) :
  l ≡ₚ l' → by_key comparefn key l → by_key comparefn key l'.
Proof. intros Hperm Hkey x y Hx Hy. apply Hkey; by rewrite Hperm. Qed.

Lemma by_key_cons (x : A) (l : list A) :
  by_key comparefn key (x :: l) → by_key comparefn key l.
Proof. intros H y z Hy Hz. apply H; by apply list_elem_of_further. Qed.

Lemma by_key_head (x y : A) (l : list A) :
  by_key comparefn key (x :: y :: l) → SortCompare comparefn x y = key y - key x.
Proof.
  intros H. apply H; [apply list_elem_of_here|].
  apply list_elem_of_further, list_elem_of_here.
Qed.

Lemma by_key_skip (x y : A) (l : list A) :
  by_key comparefn key (x :: y :: l) → by_key comparefn key (x :: l).
Proof.
  intros H. eapply by_key_cons, by_key_perm; [|exact H]. apply Permutation_swap.
Qed.

Lemma sort_insert_sorted (x : A) (l : list A) :
  by_key comparefn key (x :: l) →
  StronglySorted (λ a b, key b ≤ key a) l →
  StronglySorted (λ a b, key b ≤ key a) (sort_insert comparefn x l).
Proof.
  intros Hkey Hsorted. induction Hsorted as [|y l Hsorted IH Hy].
  - repeat constructor.
  - cbn. rewrite (by_key_head _ _ _ Hkey).
    destruct (Z.ltb_spec 0 (key y - key x)).
    + constructor.
      * apply IH. by eapply by_key_skip.
      * rewrite sort_insert_perm. constructor; [lia|done].
    + constructor; [by constructor|].
      constructor; [lia|]. eapply Forall_impl; [exact Hy|]. intros z Hz; cbn in *. lia.
Qed.

Lemma Array_sort_sorted (l : list A) :
  by_key comparefn key l →
  StronglySorted (λ a b, key b ≤ key a) (Array_sort comparefn l).
Proof.
  induction l as [|x l IH]; intros Hkey; [constructor|]. rewrite Array_sort_cons.
  apply sort_insert_sorted.
  - eapply by_key_perm; [|exact Hkey]. by rewrite Array_sort_perm.
  - apply IH. by eapply by_key_cons.
Qed.

Lemma sort_insert_stable (k : Z) (x : A) (l : list A) :
  by_key comparefn key (x :: l) →
  filter (λ a, key a = k) (sort_insert comparefn x l) = filter (λ a, key a = k) (x :: l).
Proof.
  intros Hkey. induction l as [|y l IH]; [done|]. cbn.
  rewrite (by_key_head _ _ _ Hkey).
  destruct (Z.ltb_spec 0 (key y - key x)); [|done].
  rewrite filter_cons, IH by (by eapply by_key_skip).
  rewrite !filter_cons.
  destruct (decide (key y = k)), (decide (key x = k)); try done; lia.
Qed.

Lemma Array_sort_stable (k : Z) (l : list A) :
  by_key comparefn key l →
  filter (λ a, key a = k) (Array_sort comparefn l) = filter (λ a, key a = k) l.
Proof.
  induction l as [|x l IH]; intros Hkey; [done|].
  rewrite Array_sort_cons, sort_insert_stable.
  - rewrite !filter_cons, IH by (by eapply by_key_cons). done.
  - eapply by_key_perm; [|exact Hkey]. by rewrite Array_sort_perm.
Qed.

(** When every comparison answers 0 or NaN, nothing moves. *)
Lemma Array_sort_all_ties (l : list A) :
  (∀ x y, x ∈ l → y ∈ l → SortCompare comparefn x y = 0) →
  Array_sort comparefn l = l.
Proof.
  induction l as [|x l IH]; intros Hties; [done|]. rewrite Array_sort_cons.
  rewrite IH by (intros y z Hy Hz; apply Hties; by apply list_elem_of_further).
  destruct l as [|y l]; [done|]. cbn.
  rewrite Hties; [done|apply list_elem_of_here|].
  apply list_elem_of_further, list_elem_of_here.
Qed.

End sort.

Lemma Array_sort_fmap {A B} (f : A → B) (comparefn : B → B → number) (l : list A) :
  f <$> Array_sort (λ a b, comparefn (f a) (f b)) l = Array_sort comparefn (f <$> l).
Proof.
  induction l as [|x l IH]; [done|].
  rewrite fmap_cons, !Array_sort_cons, <- IH.
  generalize (Array_sort (λ a b, comparefn (f a) (f b)) l). clear IH.
  intros s. induction s as [|y s IH]; [done|]. cbn.
  unfold SortCompare.
  destruct (comparefn (f x) (f y)) as [|v]; cbn; [done|].
  destruct (0 <? v); cbn; [by rewrite <- IH|done].
Qed.

(** ** Conversions that throw *)

Lemma join_None (l : list (option string)) : None ∈ l → join l = None.
Proof.
  induction l as [|s l IH]; [by intros ?%elem_of_nil|].
  intros [<-|Hl]%elem_of_cons.
  - by destruct l.
  - cbn [join]. rewrite (IH Hl). destruct l; [by apply elem_of_nil in Hl|].
    by destruct s.
Qed.

(** Where the conversion throws it has no result. *)
Lemma raises_ToString (j : json) : raises j = true → json_ToString j = None.
Proof.
  revert j. fix IH 1. intros [| | | |l|o]; try done.
  - cbn [raises json_ToString]. intros Hl. apply join_None.
    revert Hl. induction l as [|e l IHl]; [done|].
    cbn [existsb map]. intros [He|Hl]%orb_true_iff.
    + pose proof (IH e He) as He'.
      assert (match e with JNull => Some "" | _ => json_ToString e end = None) as ->
        by (by destruct e).
      apply list_elem_of_here.
    + apply list_elem_of_further. by apply IHl.
  - cbn [raises json_ToString]. by intros ->.
Qed.

Lemma throws_ToString (v : value) : throws v = true → ToString v = None.
Proof. destruct v; try done; apply raises_ToString. Qed.

Lemma ToString_not_thrown (v : value) (s : string) :
  ToString v = Some s → throws v = false.
Proof.
  intros Hs. destruct (throws v) eqn:Hv; [|done].
  by rewrite (throws_ToString v Hv) in Hs.
Qed.

Lemma parseInt_not_thrown (v : value) (radix : Z) (n : number) :
  parseInt v radix = Some n → throws v = false.
Proof.
  unfold parseInt. destruct (ToString v) as [s|] eqn:Hs; [|done].
  intros _. by eapply ToString_not_thrown.
Qed.

Lemma ToNumber_not_thrown (v : value) (n : number) :
  ToNumber v = Some n → throws v = false.
Proof.
  destruct v; try done; cbn [ToNumber];
    (destruct (ToString _) as [s|] eqn:Hs; [|done]); intros _;
    by eapply ToString_not_thrown.
Qed.

Lemma Date_value_not_thrown (v : value) (n : number) :
  Date_value v = Some n → throws v = false.
Proof.
  destruct v; try done; cbn [Date_value];
    (destruct (ToString _) as [s|] eqn:Hs; [|done]); intros _;
    by eapply ToString_not_thrown.
Qed.

(** ** The item routes *)

Lemma post_items_serve (w : World) (req_body : gmap string json) (now : Z) :
  serve (post_items req_body now) no_faults w =
    let newItem : gmap string value :=
      {[ "id" := VNumber (Num now);
         "name" := prop req_body "name";
         "amount" := prop req_body "amount" ]} in
    Some ({| items_file := items_file w ++ [stringify_object newItem];
             transactions_file := transactions_file w |},
          json_response 201 newItem).
Proof.
  unfold serve, post_items; simpl.
  unfold JSON_stringify. rewrite fmap_app. fold (JSON_stringify (JSON_parse (items_file w))).
  by rewrite stringify_parse.
Qed.

Lemma delete_items_serve (name : string) (w : World) :
  serve (delete_items name) no_faults w =
    Some ({| items_file := filter (λ o, ¬ has_name name o) (items_file w);
             transactions_file := transactions_file w |},
          empty_response 204).
Proof. unfold serve, delete_items; simpl. by rewrite stringify_filter. Qed.

(** How each route may change the items file, under any failures. *)
Lemma post_items_outcome (w w' : World) (req_body : gmap string json) (now : Z)
    (faults : nat → option string) (r : Response) :
  serve (post_items req_body now) faults w = Some (w', r) →
  items_file w' = items_file w
  ∨ ∃ o, items_file w' = items_file w ++ [o]
      ∧ o !! "id" = Some (JNum now)
      ∧ o !! "amount" = req_body !! "amount".
Proof.
  unfold serve, post_items; cbn [body catch run]. unfold later.
  destruct (faults 0%nat); [intros [= <- <-]; by left|].
  destruct (faults 1%nat); [intros [= <- <-]; by left|].
  intros [= <- <-]. right. cbn [read write items_file].
  unfold JSON_stringify. rewrite fmap_app.
  fold (JSON_stringify (JSON_parse (items_file w))). rewrite stringify_parse.
  eexists. split; [done|]. rewrite !lookup_stringify_object. unfold get. split.
  - done.
  - rewrite !lookup_insert_ne, lookup_singleton_eq by done. apply stringify_prop.
Qed.

Lemma put_items_outcome (w w' : World) (name : string) (req_body : gmap string json)
    (faults : nat → option string) (r : Response) :
  serve (put_items name req_body) faults w = Some (w', r) →
  items_file w' = items_file w
  ∨ ∃ i o, items_file w !! i = Some o
      ∧ items_file w' = <[i := req_body ∪ o]> (items_file w).
Proof.
  unfold serve, put_items; cbn [body catch run]. unfold later.
  destruct (faults 0%nat); [intros [= <- <-]; by left|]. cbn [read].
  destruct (list_find _ _) as [[i item]|] eqn:Hfind; [|intros [= <- <-]; by left].
  cbn [run]. destruct (faults 1%nat); [intros [= <- <-]; by left|].
  intros [= <- <-]. right. cbn [write items_file].
  apply list_find_Some in Hfind as [(o & Ho & ->)%lookup_parsed _].
  exists i, o. by rewrite stringify_insert, stringify_merge.
Qed.

Lemma delete_items_outcome (w w' : World) (name : string)
    (faults : nat → option string) (r : Response) :
  serve (delete_items name) faults w = Some (w', r) →
  items_file w' = items_file w
  ∨ items_file w' = filter (λ o, ¬ has_name name o) (items_file w).
Proof.
  unfold serve, delete_items; cbn [body catch run]. unfold later.
  destruct (faults 0%nat); [intros [= <- <-]; by left|].
  destruct (faults 1%nat); [intros [= <- <-]; by left|].
  intros [= <- <-]. right. cbn [read write items_file]. by rewrite stringify_filter.
Qed.

Lemma ledger_routes_keep_items (w w' : World) (q : request)
    (faults : nat → option string) (r : Response) :
  match q with
  | ListItems | ListTransactions | UpdateTransaction _ _ | DeleteTransaction _ => True
  | _ => False
  end →
  serve (handler q) faults w = Some (w', r) →
  items_file w' = items_file w.
Proof.
  destruct q; try done; intros _; unfold serve; cbn [handler body catch run];
    unfold get_items, get_transactions, put_transactions, delete_transactions;
    cbn [body catch run]; unfold later;
    (destruct (faults 0%nat); [by intros [= <- <-]|]); cbn [read].
  - by intros [= <- <-].
  - destruct (_ && _); [by intros [= <- <-]|].
    destruct (forallb _ _); [|done]. by intros [= <- <-].
  - destruct (parseInt _ _) as [idx|]; [|done]. cbn [modelled].
    destruct (out_of_bounds _ _); [by intros [= <- <-]|]. cbn [run].
    destruct (faults 1%nat); by intros [= <- <-].
  - destruct (parseInt _ _) as [idx|]; [|done]. cbn [modelled].
    destruct (out_of_bounds _ _); [by intros [= <- <-]|]. cbn [run].
    destruct (faults 1%nat); by intros [= <- <-].
Qed.

(** ** Take-item *)

Lemma parseInt_positive_truthy (v : value) (n : Z) :
  parseInt v 10 = Some (Num n) → 0 < n → truthy v = true.
Proof.
  intros Hparse Hpos. destruct v as [| |[]|[|z]|s|l|o]; try done.
  - simpl. destruct (Z.eqb_spec z 0) as [->|]; [|done].
    vm_compute in Hparse. injection Hparse as <-. lia.
  - destruct s; [done|]. done.
Qed.

Lemma take_item_valid_run (w : World) (req_body : gmap string json)
    (itemIndex : nat) (item : gmap string value) (stock requested : number)
    (faults : nat → option string) :
  truthy (prop req_body "itemName") = true →
  truthy (prop req_body "amount") = true →
  list_find (name_is (prop req_body "itemName")) (JSON_parse (items_file w))
    = Some (itemIndex, item) →
  parseInt (prop req_body "amount") 10 = Some requested →
  isNaN requested || number_le requested (Num 0) = false →
  ToNumber (get item "amount") = Some stock →
  number_lt stock requested = false →
  exact stock && exact (number_sub stock requested) = true →
  faults 0%nat = None →
  run (body (take_item req_body)) faults w =
  run (WriteFile ITEMS_FILE (alter (set_amount (number_sub stock requested)) itemIndex (items_file w))
        (record_transaction
           (if negb (truthy (prop req_body "personName")) then VString "System"
            else prop req_body "personName")
           (prop req_body "itemName") requested (prop req_body "date")
           (<["amount" := VNumber (number_sub stock requested)]> item)))
      (later faults) w.
Proof.
  intros Hname Hamount Hfind Hparse Hvalid Hstock Hlt Hexact Hf.
  unfold take_item; cbn [body]. rewrite Hname, Hamount. cbn [negb orb run].
  rewrite Hf. cbn [read]. rewrite Hfind, Hparse.
  rewrite (parseInt_not_thrown _ _ _ Hparse). cbn [convert modelled].
  rewrite Hvalid, Hstock, (ToNumber_not_thrown _ _ Hstock). cbn [convert modelled].
  rewrite Hlt, Hexact. cbn [negb].
  rewrite stringify_set_amount; [done|].
  by apply list_find_Some in Hfind as (? & _).
Qed.

(** The stock that passed the check is exact after the take as well. *)
Lemma exact_remaining (stock : number) (requested : Z) :
  exact stock = true →
  0 < requested →
  number_lt stock (Num requested) = false →
  exact (number_sub stock (Num requested)) = true.
Proof.
  destruct stock as [|z]; [done|]. cbn. unfold safe, MAX_SAFE.
  rewrite !andb_true_iff, !Z.leb_le, Z.ltb_ge. lia.
Qed.

Lemma record_transaction_run (personName itemName : value) (requested : Z) (date : value)
    (item : gmap string value) (faults : nat → option string) (w w' : World)
    (res : string + Response) :
  run (record_transaction personName itemName (Num requested) date item) faults w
  = Some (w', res) →
  items_file w' = items_file w
  ∧ ((∃ e, res = inl e ∧ transactions_file w' = transactions_file w
        ∧ ∃ n, faults n = Some e)
     ∨ (∃ entry, transactions_file w' = transactions_file w ++ [entry]
          ∧ entry !! "amount" = Some (JNum requested)
          ∧ (res = inl not_primitive
             ∨ ∃ r, res = inr r ∧ status r = 200))).
Proof.
  unfold record_transaction. cbn [run]. unfold later.
  destruct (faults 0%nat) as [e|] eqn:Hf0.
  { intros [= <- <-]. split; [done|]. left. eauto 6. }
  destruct (faults 1%nat) as [e|] eqn:Hf1.
  { intros [= <- <-]. split; [done|]. left. eauto 6. }
  cbn [read write].
  unfold JSON_stringify. rewrite fmap_app.
  fold (JSON_stringify (JSON_parse (transactions_file w))). rewrite stringify_parse.
  intros Hrun.
  assert (∃ r', res = r' ∧ w' = {| items_file := items_file w;
            transactions_file := transactions_file w ++
              (stringify_object <$>
               [ {[ "personName" := personName; "itemName" := itemName;
                    "amount" := VNumber (Num requested);
                    "date" := if truthy date then date else VString "" ]} ]) |}
          ∧ (r' = inl not_primitive ∨ ∃ r, r' = inr r ∧ status r = 200))
    as (r' & -> & -> & Hres).
  { unfold convert, modelled in Hrun.
    repeat (first [case_match | progress simplify_eq | progress cbn [run] in *]);
      eexists; (split; [done|]); (split; [done|]); eauto. }
  split; [done|]. right. eexists. split_and!; [done| |done].
  rewrite lookup_stringify_object. unfold get.
  by rewrite !lookup_insert_ne, lookup_insert_eq by done.
Qed.

(** Every way a take-item request can end: either nothing was written and
    the answer is not a success, or the request passed its checks and the
    stock was decremented.  In that case either the ledger is as it was and
    the answer is the 500 of a failed [fs] call, or the ledger has its new
    entry and the answer is 200, or the 500 of a message that could not be
    put together. *)
Lemma take_item_outcome (w w' : World) (req_body : gmap string json)
    (faults : nat → option string) (r : Response) :
  serve (take_item req_body) faults w = Some (w', r) →
  (w' = w ∧ status r ≠ 200)
  ∨ ∃ itemIndex item stock requested,
      truthy (prop req_body "itemName") = true
      ∧ list_find (name_is (prop req_body "itemName")) (JSON_parse (items_file w))
        = Some (itemIndex, item)
      ∧ parseInt (prop req_body "amount") 10 = Some (Num requested)
      ∧ 0 < requested
      ∧ ToNumber (get item "amount") = Some stock
      ∧ number_lt stock (Num requested) = false
      ∧ exact stock = true
      ∧ items_file w'
        = alter (set_amount (number_sub stock (Num requested))) itemIndex (items_file w)
      ∧ ((transactions_file w' = transactions_file w ∧ status r = 500
          ∧ ∃ n e, faults n = Some e)
         ∨ (∃ entry, transactions_file w' = transactions_file w ++ [entry]
              ∧ entry !! "amount" = Some (JNum requested))
           ∧ (status r = 200 ∨ status r = 500)).
Proof.
  intros Hserve. unfold serve in Hserve.
  destruct (truthy (prop req_body "itemName")) eqn:Hname;
    [destruct (truthy (prop req_body "amount")) eqn:Hamount|];
    try (unfold take_item in Hserve; cbn [body catch] in Hserve;
         rewrite Hname, ?Hamount in Hserve; cbn in Hserve;
         injection Hserve as <- <-; by left).
  destruct (faults 0%nat) as [e|] eqn:Hf0.
  { unfold take_item in Hserve; cbn [body catch] in Hserve.
    rewrite Hname, Hamount in Hserve. cbn [negb orb run] in Hserve.
    rewrite Hf0 in Hserve. injection Hserve as <- <-. by left. }
  destruct (list_find (name_is (prop req_body "itemName")) (JSON_parse (items_file w)))
    as [[itemIndex item]|] eqn:Hfind.
  2:{ unfold take_item in Hserve; cbn [body catch] in Hserve.
      rewrite Hname, Hamount in Hserve. cbn [negb orb run] in Hserve.
      rewrite Hf0 in Hserve. cbn [read] in Hserve. rewrite Hfind in Hserve.
      injection Hserve as <- <-. by left. }
  destruct (throws (prop req_body "amount")) eqn:Hthrown.
  { unfold take_item in Hserve; cbn [body catch] in Hserve.
    rewrite Hname, Hamount in Hserve. cbn [negb orb run] in Hserve.
    rewrite Hf0 in Hserve. cbn [read] in Hserve. rewrite Hfind, Hthrown in Hserve.
    injection Hserve as <- <-. by left. }
  destruct (parseInt (prop req_body "amount") 10) as [requestedAmount|] eqn:Hparse.
  2:{ unfold take_item in Hserve; cbn [body catch] in Hserve.
      rewrite Hname, Hamount in Hserve. cbn [negb orb run] in Hserve.
      rewrite Hf0 in Hserve. cbn [read] in Hserve.
      by rewrite Hfind, Hthrown, Hparse in Hserve. }
  destruct (isNaN requestedAmount || number_le requestedAmount (Num 0)) eqn:Hvalid.
  { unfold take_item in Hserve; cbn [body catch] in Hserve.
    rewrite Hname, Hamount in Hserve. cbn [negb orb run] in Hserve.
    rewrite Hf0 in Hserve. cbn [read] in Hserve.
    rewrite Hfind, Hthrown, Hparse in Hserve. cbn [convert modelled] in Hserve.
    rewrite Hvalid in Hserve. injection Hserve as <- <-. by left. }
  destruct (throws (get item "amount")) eqn:Hthrown'.
  { unfold take_item in Hserve; cbn [body catch] in Hserve.
    rewrite Hname, Hamount in Hserve. cbn [negb orb run] in Hserve.
    rewrite Hf0 in Hserve. cbn [read] in Hserve.
    rewrite Hfind, Hthrown, Hparse in Hserve. cbn [convert modelled] in Hserve.
    rewrite Hvalid, Hthrown' in Hserve. injection Hserve as <- <-. by left. }
  destruct (ToNumber (get item "amount")) as [stock|] eqn:Hstock.
  2:{ unfold take_item in Hserve; cbn [body catch] in Hserve.
      rewrite Hname, Hamount in Hserve. cbn [negb orb run] in Hserve.
      rewrite Hf0 in Hserve. cbn [read] in Hserve.
      rewrite Hfind, Hthrown, Hparse in Hserve. cbn [convert modelled] in Hserve.
      by rewrite Hvalid, Hthrown', Hstock in Hserve. }
  destruct (number_lt stock requestedAmount) eqn:Hlt.
  { unfold take_item in Hserve; cbn [body catch] in Hserve.
    rewrite Hname, Hamount in Hserve. cbn [negb orb run] in Hserve.
    rewrite Hf0 in Hserve. cbn [read] in Hserve.
    rewrite Hfind, Hthrown, Hparse in Hserve. cbn [convert modelled] in Hserve.
    rewrite Hvalid, Hthrown', Hstock in Hserve. cbn [convert modelled] in Hserve.
    rewrite Hlt in Hserve. injection Hserve as <- <-. by left. }
  destruct (exact stock && exact (number_sub stock requestedAmount)) eqn:Hexact.
  2:{ unfold take_item in Hserve; cbn [body catch] in Hserve.
      rewrite Hname, Hamount in Hserve. cbn [negb orb run] in Hserve.
      rewrite Hf0 in Hserve. cbn [read] in Hserve.
      rewrite Hfind, Hthrown, Hparse in Hserve. cbn [convert modelled] in Hserve.
      rewrite Hvalid, Hthrown', Hstock in Hserve. cbn [convert modelled] in Hserve.
      by rewrite Hlt, Hexact in Hserve. }
  erewrite take_item_valid_run in Hserve by done.
  destruct requestedAmount as [|requested]; [done|].
  cbn [isNaN number_le orb] in Hvalid. apply Z.leb_gt in Hvalid.
  apply andb_true_iff in Hexact as [Hexact _].
  cbn [run] in Hserve. unfold later in Hserve.
  destruct (faults 1%nat) as [e|] eqn:Hf1.
  { injection Hserve as <- <-. by left. }
  destruct (run _ _ _) as [[w1 res]|] eqn:Hrun in Hserve; [|done].
  apply record_transaction_run in Hrun as [Hitems Hledger]. cbn in Hitems, Hledger.
  right. exists itemIndex, item, stock, requested.
  split_and!; try done.
  - by destruct res; injection Hserve as <- <-.
  - destruct Hledger as [(e & -> & Htx & n & Hn)|(entry & Htx & Hentry & Hres)].
    + injection Hserve as <- <-. left. split_and!; [done|done|]. by exists (S (S n)), e.
    + right.
      destruct Hres as [->|(r' & -> & Hst)]; injection Hserve as <- <-;
        (split; [by exists entry|]); [by right|by left].
Qed.

Lemma take_item_keeps_amounts_ok (w w' : World) (req_body : gmap string json)
    (faults : nat → option string) (r : Response) :
  amounts_nonneg w →
  serve (take_item req_body) faults w = Some (w', r) →
  amounts_nonneg w'.
Proof.
  unfold amounts_nonneg. intros Hinv Hserve.
  apply take_item_outcome in Hserve
    as [[-> _]|(i & item & stock & requested & _ & Hfind & _ & Hpos & Hstock & Hlt & _ & -> & _)];
    [done|].
  apply list_find_Some in Hfind as [(o & Ho & ->)%lookup_parsed _].
  apply Forall_alter; [done|]. intros o' Ho' (s & Hs & Hs0).
  rewrite Ho in Ho'. injection Ho' as <-.
  rewrite get_parsed in Hstock. unfold prop in Hstock. rewrite Hs in Hstock.
  injection Hstock as <-. cbn in Hlt. apply Z.ltb_ge in Hlt.
  exists (s - requested). unfold set_amount; cbn.
  rewrite lookup_insert_eq. split; [done|lia].
Qed.

Lemma serve_keeps_amounts_ok (w w' : World) (q : request)
    (faults : nat → option string) (r : Response) :
  amounts_nonneg w →
  supplies_amount_ok q →
  serve (handler q) faults w = Some (w', r) →
  amounts_nonneg w'.
Proof.
  unfold amounts_nonneg. intros Hinv Hq Hserve.
  destruct q as [|b now|name b|name|b| |index b|index];
    try (eapply ledger_routes_keep_items in Hserve; [by rewrite Hserve|done]).
  - apply post_items_outcome in Hserve as [->|(o & -> & _ & Hamount)]; [done|].
    apply Forall_app; split; [done|]. apply Forall_singleton.
    unfold stock_ok. by rewrite Hamount.
  - apply put_items_outcome in Hserve as [->|(i & o & Ho & ->)]; [done|].
    apply Forall_insert; [done|]. unfold stock_ok.
    destruct Hq as [Hnone|(z & Hz & Hz0)].
    + rewrite lookup_union_r by done. by eapply (Forall_lookup_1 _ _ _ _ Hinv Ho).
    + exists z. by erewrite lookup_union_Some_l.
  - apply delete_items_outcome in Hserve as [->| ->]; [done|].
    apply Forall_forall. intros o [_ Ho]%list_elem_of_filter.
    by eapply Forall_forall in Hinv.
  - by eapply take_item_keeps_amounts_ok.
Qed.



Lemma run_step {R} (p p' : Fs R) (w w' : World) :
  step p w = Some (p', w') → run p no_faults w = run p' no_faults w'.
Proof. destruct p; try done; by intros [= <- <-]. Qed.

(** ** The ledger routes *)

Lemma forallb_date_modelled (txs : list (gmap string json)) :
  Forall (λ o, is_Some (entry_time o)) txs →
  forallb date_modelled (JSON_parse txs) = true.
Proof.
  intros Hall. apply forallb_forall. intros t Ht.
  apply list_elem_of_In, list_elem_of_fmap in Ht as (o & -> & Ho).
  unfold date_modelled. rewrite get_parsed. apply bool_decide_eq_true.
  by eapply Forall_forall in Hall.
Qed.

Lemma existsb_date_throws (txs : list (gmap string json)) :
  Forall (λ o, is_Some (entry_time o)) txs →
  existsb (λ t, throws (get t "date")) (JSON_parse txs) = false.
Proof.
  intros Hall. apply not_true_iff_false. intros (t & Ht & Hthrown)%existsb_exists.
  apply list_elem_of_In, list_elem_of_fmap in Ht as (o & -> & Ho).
  rewrite get_parsed in Hthrown.
  destruct (proj1 (Forall_forall _ _) Hall o Ho) as [n Hn].
  unfold entry_time in Hn. by rewrite (Date_value_not_thrown _ _ Hn) in Hthrown.
Qed.

Lemma get_transactions_serve (w : World) :
  Forall (λ o, is_Some (entry_time o)) (transactions_file w) →
  serve get_transactions no_faults w
  = Some (w, {| status := 200;
                payload := Some (JArr (JObj <$>
                  Array_sort (λ a b, default NaN (by_date (parse_object a) (parse_object b)))
                    (transactions_file w))) |}).
Proof.
  intros Hall. unfold serve, get_transactions; cbn [body catch run read].
  rewrite existsb_date_throws by done.
  rewrite andb_false_r, forallb_date_modelled by done. cbn [run].
  unfold array_response, JSON_parse.
  rewrite <- (Array_sort_fmap parse_object).
  fold (JSON_parse (Array_sort
    (λ a b, default NaN (by_date (parse_object a) (parse_object b))) (transactions_file w))).
  by rewrite stringify_parse.
Qed.

(** ** The statements of the specification *)

(** C1, as stated, fails: when the write of the ledger throws, the answer
    is an error (500), but the items file keeps the decremented stock and
    the ledger has no entry for it. *)
Lemma take_item_failed_ledger_write_keeps_decrement :
  let w' := {| items_file :=
                 [ {[ "id" := JNum 1700000000000; "name" := JStr "Widget";
                      "amount" := JNum 7 ]} ];
               transactions_file := [] |} in
  serve (take_item take_three_widgets) fourth_call_fails widget_store
  = Some (w', error_response 500 "Error processing transaction EIO: i/o error")
  ∧ amounts widget_store = [Some (JNum 10)]
  ∧ amounts w' = [Some (JNum 7)]
  ∧ transactions_file w' = transactions_file widget_store.
Proof. split_and!; vm_compute; reflexivity. Qed.

(** C1, amended.  When a take-item request passes its four checks (the
    amount parses to a quantity above zero, the stock is a number within
    the exact range and not below the quantity) and the write of the ledger
    fails after the write of the items succeeded, the answer is 500 with
    the message of the error, not a success; the items file holds the
    decremented stock and the ledger, which the failed write has not
    touched, is as it was.  There is no compensating write. *)
Theorem take_item_ledger_write_failure (w : World) (req_body : gmap string json)
    (itemIndex : nat) (item : gmap string value) (stock requested : Z)
    (faults : nat → option string) (e : string) :
  truthy (prop req_body "itemName") = true →
  list_find (name_is (prop req_body "itemName")) (JSON_parse (items_file w))
    = Some (itemIndex, item) →
  ToNumber (get item "amount") = Some (Num stock) →
  safe stock = true →
  parseInt (prop req_body "amount") 10 = Some (Num requested) →
  0 < requested →
  requested ≤ stock →
  faults 0%nat = None → faults 1%nat = None → faults 2%nat = None →
  faults 3%nat = Some e →
  serve (take_item req_body) faults w =
    Some ({| items_file :=
               alter (<["amount" := JNum (stock - requested)]>) itemIndex (items_file w);
             transactions_file := transactions_file w |},
          {| status := 500;
             payload := Some (JObj {[ "error" :=
                          JStr ("Error processing transaction " +:+ e) ]}) |}).
Proof.
  intros Hname Hfind Hstock Hsafe Hparse Hpos Hle Hf0 Hf1 Hf2 Hf3.
  pose proof (parseInt_positive_truthy _ _ Hparse Hpos) as Hamount.
  assert (number_lt (Num stock) (Num requested) = false) as Hlt
    by (cbn; apply Z.ltb_ge; lia).
  unfold serve.
  erewrite take_item_valid_run; [|done|done|done|done| |done|done| |done].
  - cbn [run record_transaction]. unfold later. rewrite Hf1, Hf2, Hf3.
    cbn [catch take_item]. by rewrite error_response_payload.
  - cbn. apply Z.leb_gt. lia.
  - apply andb_true_iff. split; [done|]. by apply exact_remaining.
Qed.

Lemma take_item_ledger_write_failure_witness :
  serve (take_item take_three_widgets) fourth_call_fails widget_store =
    Some ({| items_file :=
               alter (<["amount" := JNum (10 - 3)]>) 0%nat (items_file widget_store);
             transactions_file := transactions_file widget_store |},
          {| status := 500;
             payload := Some (JObj {[ "error" :=
                          JStr ("Error processing transaction " +:+ "EIO: i/o error") ]}) |}).
Proof.
  eapply (take_item_ledger_write_failure widget_store take_three_widgets 0%nat _ 10 3);
    [reflexivity | vm_compute; reflexivity | reflexivity | reflexivity | reflexivity
    | lia | lia | reflexivity | reflexivity | reflexivity | reflexivity].
Defined.

(** C2, as stated, fails: a create stores the amount it is given, so one
    request on the empty store leaves an item whose amount is -5. *)
Lemma create_stores_a_negative_amount :
  let w' := {| items_file :=
                 [ {[ "id" := JNum 1700000000000; "name" := JStr "Widget";
                      "amount" := JNum (-5) ]} ];
               transactions_file := [] |} in
  serve (post_items create_negative 1700000000000) no_faults empty_store
  = Some (w', json_response 201
                {[ "id" := VNumber (Num 1700000000000); "name" := VString "Widget";
                   "amount" := VNumber (Num (-5)) ]})
  ∧ amounts w' = [Some (JNum (-5))]
  ∧ ¬ amounts_nonneg w'.
Proof.
  split_and!; [vm_compute; reflexivity | vm_compute; reflexivity |].
  intros Hinv. apply Forall_cons in Hinv as [(z & Hz & Hz0) _].
  vm_compute in Hz. injection Hz as <-. lia.
Qed.

(** C2, amended.  Starting from items whose amounts are non-negative
    integers, after any sequence of requests to any of the routes, served
    one after the other and whatever [fs] calls fail, every item's amount is
    a non-negative integer, provided each create carries such an amount and
    each update carries such an amount or none.  Create and update store the
    amount of the request as it is; only take-item guards the stock. *)
Theorem amounts_stay_nonnegative (qs : list (request * (nat → option string)))
    (w w' : World) (rs : list Response) :
  amounts_nonneg w →
  Forall (λ qf, supplies_amount_ok qf.1) qs →
  serve_all qs w = Some (w', rs) →
  amounts_nonneg w'.
Proof.
  revert w rs. induction qs as [|[q faults] qs IH]; intros w rs Hinv Hqs Hrun.
  - by injection Hrun as <- <-.
  - apply Forall_cons in Hqs as [Hq Hqs]. cbn [serve_all] in Hrun.
    destruct (serve (handler q) faults w) as [[w1 r]|] eqn:Hserve; [|done].
    destruct (serve_all qs w1) as [[w2 rs']|] eqn:Hrest; [|done].
    injection Hrun as <- <-.
    eapply IH; [|done|done]. by eapply serve_keeps_amounts_ok.
Qed.

Lemma amounts_stay_nonnegative_witness :
  amounts_nonneg
    {| items_file :=
         [ {[ "id" := JNum 1700000000000; "name" := JStr "Widget"; "amount" := JNum 1 ]} ];
       transactions_file :=
         [ {[ "personName" := JStr "Alice"; "itemName" := JStr "Widget";
              "amount" := JNum 3; "date" := JStr "" ]} ] |}.
Proof.
  eapply (amounts_stay_nonnegative sample_session empty_store).
  - apply Forall_nil_2.
  - repeat apply Forall_cons_2; try apply Forall_nil_2; cbn; try exact I.
    + exists 10. split; [reflexivity|lia].
    + right. exists 4. split; [reflexivity|lia].
  - vm_compute. reflexivity.
Defined.

(** C3, as stated, fails: for a request whose amount is not a number and
    whose item does not exist, the answer is 404 "Item not found", not 400
    "Invalid amount": the lookup comes before the parse. *)
Lemma take_item_unknown_item_bad_amount_is_404 :
  parseInt (prop take_unknown_item_bad_amount "amount") 10 = Some NaN
  ∧ list_find (name_is (prop take_unknown_item_bad_amount "itemName"))
      (JSON_parse (items_file widget_store)) = None
  ∧ serve (take_item take_unknown_item_bad_amount) no_faults widget_store
    = Some (widget_store, error_response 404 "Item not found")
  ∧ serve (take_item take_unknown_item_bad_amount) no_faults widget_store
    ≠ Some (widget_store, error_response 400 "Invalid amount").
Proof.
  assert (serve (take_item take_unknown_item_bad_amount) no_faults widget_store
          = Some (widget_store, error_response 404 "Item not found")) as Hrun
    by (vm_compute; reflexivity).
  split_and!; [reflexivity | vm_compute; reflexivity | exact Hrun |].
  rewrite Hrun. intros [= Hstatus].
Qed.

(** C3, amended.  The checks of take-item run in this order: [itemName]
    and [amount] must be truthy (a missing one, and also an amount of 0 or
    an empty string, is answered 400 "Missing required fields" before any
    file is read), then an item with that name must exist, then the amount
    must parse to an integer above zero, then the stock must suffice.  So a
    request with both fields truthy that names no existing item is answered
    404 whatever its amount, and "Invalid amount" is only reached for an
    item that exists.  For such an item an amount that cannot be converted
    to a string makes [parseInt] throw, and the answer is the 500 of the
    handler's [catch].  Each of these answers leaves both files unchanged. *)
Theorem take_item_validation_order (w : World) (req_body : gmap string json)
    (faults : nat → option string) :
  let itemName := prop req_body "itemName" in
  let amount := prop req_body "amount" in
  let found := list_find (name_is itemName) (JSON_parse (items_file w)) in
  (truthy itemName && truthy amount = false →
   serve (take_item req_body) faults w
   = Some (w, error_response 400 "Missing required fields"))
  ∧ (truthy itemName && truthy amount = true → faults 0%nat = None →
     (found = None →
      serve (take_item req_body) faults w = Some (w, error_response 404 "Item not found"))
     ∧ (∀ itemIndex item,
          found = Some (itemIndex, item) →
          throws amount = true →
          serve (take_item req_body) faults w
          = Some (w, error_response 500
                       ("Error processing transaction " +:+ not_primitive)))
     ∧ (∀ itemIndex item requestedAmount,
          found = Some (itemIndex, item) →
          parseInt amount 10 = Some requestedAmount →
          (isNaN requestedAmount || number_le requestedAmount (Num 0) = true →
           serve (take_item req_body) faults w
           = Some (w, error_response 400 "Invalid amount"))
          ∧ (∀ stock,
               isNaN requestedAmount || number_le requestedAmount (Num 0) = false →
               ToNumber (get item "amount") = Some stock →
               number_lt stock requestedAmount = true →
               serve (take_item req_body) faults w
               = Some (w, error_response 400 "Insufficient amount")))).
Proof.
  intros itemName amount found. subst itemName amount found.
  unfold serve, take_item; cbn [body catch]. split.
  - intros Hpresent.
    replace (negb (truthy (prop req_body "itemName")) || negb (truthy (prop req_body "amount")))
      with true by (by destruct (truthy _), (truthy _)).
    done.
  - intros [-> ->]%andb_true_iff Hf. cbn [negb orb run]. rewrite Hf. cbn [read].
    split_and!; [by intros ->| |].
    + by intros i item -> ->.
    + intros i item n -> Hparse.
      rewrite Hparse, (parseInt_not_thrown _ _ _ Hparse). cbn [convert modelled].
      split; [by intros ->|].
      intros stock -> Hstock.
      rewrite Hstock, (ToNumber_not_thrown _ _ Hstock). cbn [convert modelled].
      by intros ->.
Qed.

Lemma take_item_validation_order_witness :
  serve (take_item take_unknown_item_bad_amount) no_faults widget_store
  = Some (widget_store, error_response 404 "Item not found").
Proof.
  apply (take_item_validation_order widget_store take_unknown_item_bad_amount no_faults);
    [reflexivity | reflexivity | vm_compute; reflexivity].
Defined.




(** C5.  When the request names an item that exists and the quantity it
    asks for is larger than the stock of the first item with that name, the
    answer is 400 with the error "Insufficient amount", and neither file is
    written: the items and the ledger are as before.  The quantity is the
    parsed amount and has passed the check before this one, so it is above
    zero (as any quantity above a stock that is not negative is). *)
Theorem take_item_insufficient_stock (w : World) (req_body : gmap string json)
    (itemIndex : nat) (item : gmap string value) (stock requested : Z)
    (faults : nat → option string) :
  truthy (prop req_body "itemName") = true →
  list_find (name_is (prop req_body "itemName")) (JSON_parse (items_file w))
    = Some (itemIndex, item) →
  ToNumber (get item "amount") = Some (Num stock) →
  parseInt (prop req_body "amount") 10 = Some (Num requested) →
  0 < requested →
  stock < requested →
  faults 0%nat = None →
  serve (take_item req_body) faults w =
    Some (w, {| status := 400;
                payload := Some (JObj {[ "error" := JStr "Insufficient amount" ]}) |}).
Proof.
  intros Hname Hfind Hstock Hparse Hpos Hlt Hf.
  pose proof (parseInt_positive_truthy _ _ Hparse Hpos) as Hamount.
  unfold serve, take_item; cbn [body catch].
  rewrite Hname, Hamount. cbn [negb orb run]. rewrite Hf. cbn [read].
  rewrite Hfind, Hparse, (parseInt_not_thrown _ _ _ Hparse).
  cbn [convert modelled isNaN number_le orb].
  destruct (Z.leb_spec requested 0) as [|_]; [lia|].
  rewrite Hstock, (ToNumber_not_thrown _ _ Hstock). cbn [convert modelled number_lt].
  destruct (Z.ltb_spec stock requested) as [_|]; [|lia].
  cbn [run]. by rewrite error_response_payload.
Qed.

Lemma take_item_insufficient_stock_witness :
  serve (take_item {[ "itemName" := JStr "Widget"; "amount" := JNum 100 ]}) no_faults
    widget_store =
    Some (widget_store,
          {| status := 400;
             payload := Some (JObj {[ "error" := JStr "Insufficient amount" ]}) |}).
Proof.
  eapply (take_item_insufficient_stock widget_store _ 0%nat _ 10 100);
    [reflexivity | vm_compute; reflexivity | reflexivity | reflexivity | lia | lia
    | reflexivity].
Defined.

(** C6 on the code: a ledger holding an entry dated 2024, an entry without
    a date and an entry dated 2025, in this order, is returned in this
    order.  The comparator subtracts the two dates; with the undated entry
    the difference is NaN, which the sort takes for "equal", so nothing
    moves, and the entry of 2024 stays ahead of the later one of 2025. *)
Theorem get_transactions_mixed_dates_unsorted :
  serve get_transactions no_faults mixed_ledger
  = Some (mixed_ledger,
          {| status := 200;
             payload := Some (JArr (JObj <$> transactions_file mixed_ledger)) |})
  ∧ Date_value (VString "2024-01-01") = Some (Num 1704067200000)
  ∧ Date_value (VString "") = Some NaN
  ∧ Date_value (VString "2025-01-01") = Some (Num 1735689600000).
Proof. split_and!; vm_compute; reflexivity. Qed.

(** X1.  Beside C6, where the ordering does hold: when the date of every stored
    entry is a date, the answer is the ledger rearranged with later dates
    first, and entries of one same date in their stored order. *)
Theorem get_transactions_sorted_when_dated (w : World) :
  Forall (λ o, ∃ t, entry_time o = Some (Num t)) (transactions_file w) →
  ∃ out,
    serve get_transactions no_faults w
    = Some (w, {| status := 200; payload := Some (JArr (JObj <$> out)) |})
    ∧ out ≡ₚ transactions_file w
    ∧ StronglySorted (λ a b, time_of b ≤ time_of a) out
    ∧ ∀ t, filter (λ o, time_of o = t) out
           = filter (λ o, time_of o = t) (transactions_file w).
Proof.
  intros Hdated. eexists. split; [apply get_transactions_serve|].
  { eapply Forall_impl; [exact Hdated|]. by intros o [t ->]. }
  assert (by_key (λ a b, default NaN (by_date (parse_object a) (parse_object b)))
            time_of (transactions_file w)) as Hkey.
  { intros x y Hx Hy.
    destruct (proj1 (Forall_forall _ _) Hdated x Hx) as [tx Htx].
    destruct (proj1 (Forall_forall _ _) Hdated y Hy) as [ty Hty].
    unfold SortCompare, by_date, time_of. rewrite !get_parsed.
    unfold entry_time in *. by rewrite Htx, Hty. }
  split_and!.
  - apply Array_sort_perm.
  - by apply Array_sort_sorted.
  - intros t. by apply Array_sort_stable.
Qed.

Lemma get_transactions_sorted_when_dated_witness :
  ∃ out,
    serve get_transactions no_faults dated_ledger
    = Some (dated_ledger, {| status := 200; payload := Some (JArr (JObj <$> out)) |})
    ∧ out ≡ₚ transactions_file dated_ledger
    ∧ StronglySorted (λ a b, time_of b ≤ time_of a) out
    ∧ ∀ t, filter (λ o, time_of o = t) out
           = filter (λ o, time_of o = t) (transactions_file dated_ledger).
Proof.
  apply (get_transactions_sorted_when_dated dated_ledger).
  repeat (apply Forall_cons_2; [vm_compute; eauto|]). apply Forall_nil_2.
Defined.

(** X2.  Beside C6: a ledger in which no entry has a date, all stored with the
    empty string, comes back in its stored order. *)
Theorem get_transactions_undated_keeps_order (w : World) :
  Forall (λ o, entry_time o = Some NaN) (transactions_file w) →
  serve get_transactions no_faults w
  = Some (w, {| status := 200;
                payload := Some (JArr (JObj <$> transactions_file w)) |}).
Proof.
  intros Hundated. rewrite get_transactions_serve.
  2:{ eapply Forall_impl; [exact Hundated|]. by intros o ->. }
  rewrite Array_sort_all_ties; [done|].
  intros x y Hx Hy.
  pose proof (proj1 (Forall_forall _ _) Hundated x Hx) as Htx.
  pose proof (proj1 (Forall_forall _ _) Hundated y Hy) as Hty.
  unfold SortCompare, by_date. rewrite !get_parsed.
  unfold entry_time in *. by rewrite Htx, Hty.
Qed.

Lemma get_transactions_undated_keeps_order_witness :
  serve get_transactions no_faults undated_ledger
  = Some (undated_ledger,
          {| status := 200;
             payload := Some (JArr (JObj <$> transactions_file undated_ledger)) |}).
Proof.
  apply (get_transactions_undated_keeps_order undated_ledger).
  repeat (apply Forall_cons_2; [vm_compute; reflexivity|]). apply Forall_nil_2.
Defined.

(** C7 on the code: the path parameter "abc" is no position of the ledger,
    yet the bounds check lets it through.  [parseInt] makes it NaN, both
    comparisons with NaN are false, and then the delete removes the first
    entry and answers 204, and the update answers 200 with the fields of
    the request, leaving every entry as it was. *)
Theorem transactions_index_not_a_number_passes_the_check :
  parseInt (VString "abc") 0 = Some NaN
  ∧ out_of_bounds NaN (length (transactions_file two_entry_ledger)) = false
  ∧ serve (delete_transactions "abc") no_faults two_entry_ledger
    = Some ({| items_file := [];
               transactions_file :=
                 [ {[ "personName" := JStr "Bob"; "itemName" := JStr "Widget";
                      "amount" := JNum 2; "date" := JStr "" ]} ] |},
            {| status := 204; payload := None |})
  ∧ serve (put_transactions "abc" {[ "amount" := JNum 9 ]}) no_faults two_entry_ledger
    = Some (two_entry_ledger,
            {| status := 200; payload := Some (JObj {[ "amount" := JNum 9 ]}) |}).
Proof. split_and!; vm_compute; reflexivity. Qed.

(** X3.  Beside C7, where the check does its work.  For a path parameter that
    reads as the integer [z] and a ledger of length [len]: the update and
    the delete by position answer 404, and write nothing, exactly when
    [z < 0] or [z >= len]; otherwise the update replaces the entry at
    position [z] by that entry with the fields of the request laid over it
    and answers 200 with the result, and the delete removes the entry at
    position [z] and answers 204.  The entries at the other positions are
    untouched. *)
Theorem transactions_by_index (w : World) (index : string)
    (req_body : gmap string json) (z : Z) :
  parseInt (VString index) 0 = Some (Num z) →
  let txs := transactions_file w in
  let len := Z.of_nat (length txs) in
  (z < 0 ∨ len ≤ z →
   serve (put_transactions index req_body) no_faults w
   = Some (w, error_response 404 "Transaction not found")
   ∧ serve (delete_transactions index) no_faults w
     = Some (w, error_response 404 "Transaction not found"))
  ∧ (0 ≤ z < len →
     ∃ t, txs !! Z.to_nat z = Some t
       ∧ serve (put_transactions index req_body) no_faults w
         = Some ({| items_file := items_file w;
                    transactions_file := <[Z.to_nat z := req_body ∪ t]> txs |},
                 {| status := 200; payload := Some (JObj (req_body ∪ t)) |})
       ∧ serve (delete_transactions index) no_faults w
         = Some ({| items_file := items_file w;
                    transactions_file := delete (Z.to_nat z) txs |},
                 {| status := 204; payload := None |})).
Proof.
  intros Hparse txs len. subst txs len.
  unfold serve, put_transactions, delete_transactions; cbn [body catch run read].
  rewrite Hparse. cbn [modelled]. unfold out_of_bounds. rewrite length_parsed.
  cbn [number_lt number_le]. split.
  - intros Hout.
    replace ((z <? 0) || (Z.of_nat (length (transactions_file w)) <=? z)) with true; [done|].
    symmetry. apply orb_true_iff. rewrite Z.ltb_lt, Z.leb_le. lia.
  - intros [Hlo Hhi].
    replace ((z <? 0) || (Z.of_nat (length (transactions_file w)) <=? z)) with false.
    2:{ symmetry. apply orb_false_iff. rewrite Z.ltb_ge, Z.leb_gt. lia. }
    destruct (lookup_lt_is_Some_2 (transactions_file w) (Z.to_nat z)) as [t Ht]; [lia|].
    exists t. split; [done|].
    assert (Array_get (JSON_parse (transactions_file w)) (Num z) = Some (parse_object t)) as ->.
    { cbn. destruct (Z.ltb_spec z 0); [lia|].
      unfold JSON_parse. by rewrite list_lookup_fmap, Ht. }
    assert (Array_splice1 (JSON_parse (transactions_file w)) (Num z)
            = delete (Z.to_nat z) (JSON_parse (transactions_file w))) as ->.
    { unfold Array_splice1. rewrite length_parsed.
      destruct (Z.ltb_spec z 0); [lia|]. by rewrite Z.min_l by lia. }
    cbn. rewrite stringify_insert, stringify_merge, stringify_delete.
    unfold json_response. by rewrite stringify_merge.
Qed.

Lemma transactions_by_index_witness :
  serve (delete_transactions "1") no_faults two_entry_ledger
  = Some ({| items_file := [];
             transactions_file := delete 1%nat (transactions_file two_entry_ledger) |},
          {| status := 204; payload := None |})
  ∧ serve (delete_transactions "2") no_faults two_entry_ledger
    = Some (two_entry_ledger, error_response 404 "Transaction not found").
Proof.
  split.
  - destruct (transactions_by_index two_entry_ledger "1" ∅ 1) as [_ Hin]; [reflexivity|].
    destruct Hin as (t & _ & _ & Hdelete); [cbn; lia|]. exact Hdelete.
  - destruct (transactions_by_index two_entry_ledger "2" ∅ 2) as [Hout _]; [reflexivity|].
    destruct Hout as [_ Hdelete]; [cbn; lia|]. exact Hdelete.
Defined.

(** X4.  Beside C7, in general: a path parameter that is not a number passes
    the bounds check.  The update then answers 200 with the request's
    fields and changes no entry; the delete removes the first entry. *)
Remark transactions_by_index_not_a_number (w : World) (index : string)
    (req_body : gmap string json) :
  parseInt (VString index) 0 = Some NaN →
  serve (put_transactions index req_body) no_faults w
  = Some (w, {| status := 200; payload := Some (JObj req_body) |})
  ∧ serve (delete_transactions index) no_faults w
    = Some ({| items_file := items_file w;
               transactions_file := tail (transactions_file w) |},
            {| status := 204; payload := None |}).
Proof.
  intros Hparse.
  unfold serve, put_transactions, delete_transactions; cbn [body catch run read].
  rewrite Hparse.
  cbn [modelled out_of_bounds number_lt number_le orb Array_get Array_set default
       from_option run write later no_faults].
  change (Array_splice1 (JSON_parse (transactions_file w)) NaN)
    with (delete 0%nat (JSON_parse (transactions_file w))).
  rewrite stringify_parse, stringify_delete.
  unfold json_response. rewrite (right_id_L ∅ (∪)), stringify_parse_object.
  destruct w as [items txs]; simpl. by destruct txs.
Qed.

Lemma transactions_by_index_not_a_number_witness :
  serve (put_transactions "abc" {[ "amount" := JNum 9 ]}) no_faults two_entry_ledger
  = Some (two_entry_ledger,
          {| status := 200; payload := Some (JObj {[ "amount" := JNum 9 ]}) |})
  ∧ serve (delete_transactions "abc") no_faults two_entry_ledger
    = Some ({| items_file := items_file two_entry_ledger;
               transactions_file := tail (transactions_file two_entry_ledger) |},
            {| status := 204; payload := None |}).
Proof.
  apply (transactions_by_index_not_a_number two_entry_ledger "abc").
  vm_compute. reflexivity.
Defined.

(** C8.  [DELETE /items/:name] keeps exactly the items whose name is not
    [name], removing every one that has it, and answers 204 whatever was
    removed; when no item has the name the files are unchanged, and a
    second delete of the same name changes nothing more. *)
Theorem delete_items_removes_all_and_is_idempotent (name : string) (w : World) :
  let kept := filter (λ o, ¬ has_name name o) (items_file w) in
  let w' := {| items_file := kept; transactions_file := transactions_file w |} in
  serve (delete_items name) no_faults w
  = Some (w', {| status := 204; payload := None |})
  ∧ Forall (λ o, o !! "name" ≠ Some (JStr name)) kept
  ∧ (Forall (λ o, o !! "name" ≠ Some (JStr name)) (items_file w) → w' = w)
  ∧ serve (delete_items name) no_faults w'
    = Some (w', {| status := 204; payload := None |}).
Proof.
  intros kept w'. split_and!.
  - apply delete_items_serve.
  - apply Forall_forall. intros o Ho. apply list_elem_of_filter in Ho as [Ho _].
    by rewrite <- has_name_lookup.
  - intros Hnone. subst w' kept. destruct w as [items txs]; simpl in *. f_equal.
    induction Hnone as [|o l Ho _ IH]; [done|].
    rewrite filter_cons. rewrite <- has_name_lookup in Ho.
    by destruct (decide _); [f_equal|].
  - rewrite delete_items_serve. subst w' kept; simpl. do 3 f_equal.
    rewrite list_filter_filter. apply list_filter_iff. tauto.
Qed.

Lemma delete_items_removes_all_and_is_idempotent_witness :
  {| items_file := filter (λ o, ¬ has_name "Gadget" o) (items_file widget_store);
     transactions_file := transactions_file widget_store |}
  = widget_store.
Proof.
  apply (delete_items_removes_all_and_is_idempotent "Gadget" widget_store).
  apply Forall_cons_2; [|apply Forall_nil_2]. vm_compute. discriminate.
Defined.

(** C9, as stated, fails on both counts: two creates within one millisecond
    give two items the same id, and an update whose body has an [id] field
    replaces the id of the item. *)
Lemma ids_collide_and_can_be_overwritten :
  let w2 := {| items_file :=
                 [ {[ "id" := JNum 1700000000000; "name" := JStr "Widget";
                      "amount" := JNum 10 ]};
                   {[ "id" := JNum 1700000000000; "name" := JStr "Gadget";
                      "amount" := JNum 2 ]} ];
               transactions_file := [] |} in
  let w3 := {| items_file :=
                 [ {[ "id" := JNum 1; "name" := JStr "Widget"; "amount" := JNum 10 ]} ];
               transactions_file := [] |} in
  fst <$> serve_all two_creates_same_ms empty_store = Some w2
  ∧ ids w2 = [Some (JNum 1700000000000); Some (JNum 1700000000000)]
  ∧ ¬ NoDup (ids w2)
  ∧ fst <$> serve (put_items "Widget" {[ "id" := JNum 1 ]}) no_faults widget_store = Some w3
  ∧ ids widget_store = [Some (JNum 1700000000000)]
  ∧ ids w3 = [Some (JNum 1)].
Proof.
  split_and!; try (vm_compute; reflexivity).
  intros Hnodup. apply NoDup_cons in Hnodup as [Hnotin _].
  apply Hnotin. vm_compute. apply list_elem_of_here.
Qed.

(** C9, amended.  The id of an item is the reading of the clock, in
    milliseconds, when it was created: a create appends an item with that
    id, so creates at different readings get different ids and creates at
    the same reading get the same one.  Afterwards the id of an existing
    item stays as it is under every route (a delete only drops items),
    except under an update whose body carries an [id] field. *)
Theorem ids_come_from_the_clock (w w' : World) (q : request)
    (faults : nat → option string) (r : Response) :
  serve (handler q) faults w = Some (w', r) →
  match q with
  | Create _ now => ids w' = ids w ∨ ids w' = ids w ++ [Some (JNum now)]
  | Update _ req_body => req_body !! "id" = None → ids w' = ids w
  | Delete _ => ids w' `sublist_of` ids w
  | _ => ids w' = ids w
  end.
Proof.
  intros Hserve. unfold ids.
  destruct q as [|b now|name b|name|b| |index b|index];
    try (eapply ledger_routes_keep_items in Hserve; [by rewrite Hserve|done]).
  - apply post_items_outcome in Hserve as [->|(o & -> & Hid & _)]; [by left|].
    right. by rewrite fmap_app, <- Hid.
  - intros Hnone. apply put_items_outcome in Hserve as [->|(i & o & Ho & ->)]; [done|].
    rewrite list_fmap_insert, lookup_union_r by done.
    apply list_insert_id. by rewrite list_lookup_fmap, Ho.
  - apply delete_items_outcome in Hserve as [->| ->]; [done|].
    apply fmap_sublist, sublist_filter.
  - apply take_item_outcome in Hserve
      as [[-> _]|(i & item & stock & requested & _ & _ & _ & _ & _ & _ & _ & -> & _)];
      [done|].
    rewrite (list_fmap_alter _ _ id).
    + by apply list_alter_id.
    + apply Forall_forall. intros o _. apply set_amount_keeps_id.
Qed.

Lemma ids_come_from_the_clock_witness :
  ids {| items_file :=
           [ {[ "id" := JNum 1700000000000; "name" := JStr "Widget";
                "amount" := JNum 4 ]} ];
         transactions_file := [] |}
  = ids widget_store.
Proof.
  refine (ids_come_from_the_clock widget_store _
            (Update "Widget" {[ "amount" := JNum 4 ]}) no_faults _ _ _).
  - vm_compute. reflexivity.
  - reflexivity.
Defined.

(** C10.  [POST /items], the same in both revisions, checks nothing: for
    every request body, whatever its [name] and [amount] are and whether or
    not they are there, the record made of the clock reading and of these
    two properties as supplied is appended to the items and returned with
    status 201.  A property the request lacks is [undefined] in the record,
    so absent from its JSON text. *)
Theorem post_items_stores_the_request_unvalidated
    (w : World) (req_body : gmap string json) (now : Z) :
  let record : gmap string json :=
    stringify_object
      {[ "id" := VNumber (Num now);
         "name" := prop req_body "name";
         "amount" := prop req_body "amount" ]} in
  serve (post_items req_body now) no_faults w =
    Some ({| items_file := items_file w ++ [record];
             transactions_file := transactions_file w |},
          {| status := 201; payload := Some (JObj record) |})
  ∧ record !! "id" = Some (JNum now)
  ∧ record !! "name" = req_body !! "name"
  ∧ record !! "amount" = req_body !! "amount"
  ∧ dom record ⊆ {[ "id"; "name"; "amount" ]}.
Proof.
  intros record. split; [apply post_items_serve|]. subst record.
  rewrite !lookup_stringify_object. unfold get.
  split_and!.
  - done.
  - rewrite lookup_insert_ne, lookup_insert_eq by done. apply stringify_prop.
  - rewrite !lookup_insert_ne, lookup_singleton_eq by done. apply stringify_prop.
  - unfold stringify_object.
    etrans; [apply dom_omap_subseteq|]. rewrite !dom_insert, dom_singleton.
    set_solver.
Qed.

(** ** Looking an item up by its name *)

Lemma find_by_name (name : string) (items : list (gmap string json))
    (i : nat) (item : gmap string value) :
  list_find (name_is (VString name)) (JSON_parse items) = Some (i, item)
  ↔ ∃ o, item = parse_object o ∧ items !! i = Some o ∧ has_name name o
      ∧ ∀ j o', items !! j = Some o' → (j < i)%nat → ¬ has_name name o'.
Proof.
  rewrite list_find_Some. split.
  - intros ((o & Ho & ->)%lookup_parsed & Hname & Hfirst).
    exists o. split_and!; [done..|]. intros j o' Ho' Hlt. unfold has_name.
    apply (Hfirst j); [|done]. apply lookup_parsed. eauto.
  - intros (o & -> & Ho & Hname & Hfirst). split_and!.
    + apply lookup_parsed. eauto.
    + done.
    + intros j y (o' & Ho' & ->)%lookup_parsed Hlt. by apply (Hfirst j).
Qed.

Lemma find_by_name_None (name : string) (items : list (gmap string json)) :
  list_find (name_is (VString name)) (JSON_parse items) = None
  ↔ Forall (λ o, ¬ has_name name o) items.
Proof.
  rewrite list_find_None. unfold JSON_parse. rewrite Forall_fmap. done.
Qed.

Lemma put_items_found (name : string) (req_body : gmap string json) (w : World)
    (i : nat) (o : gmap string json) :
  items_file w !! i = Some o →
  has_name name o →
  (∀ j o', items_file w !! j = Some o' → (j < i)%nat → ¬ has_name name o') →
  serve (put_items name req_body) no_faults w
  = Some ({| items_file := <[i := req_body ∪ o]> (items_file w);
             transactions_file := transactions_file w |},
          {| status := 200; payload := Some (JObj (req_body ∪ o)) |}).
Proof.
  intros Ho Hname Hfirst.
  assert (list_find (name_is (VString name)) (JSON_parse (items_file w))
          = Some (i, parse_object o)) as Hfind by (apply find_by_name; eauto 6).
  unfold serve, put_items; cbn [body catch run read]. rewrite Hfind.
  cbn [run write later no_faults]. unfold json_response.
  by rewrite stringify_insert, stringify_merge.
Qed.

Lemma put_items_not_found (name : string) (req_body : gmap string json) (w : World) :
  Forall (λ o, ¬ has_name name o) (items_file w) →
  serve (put_items name req_body) no_faults w
  = Some (w, error_response 404 "Item not found").
Proof.
  intros Hnone%find_by_name_None.
  unfold serve, put_items; cbn [body catch run read]. by rewrite Hnone.
Qed.

(** ** Further properties of the item routes *)

(** X5.  [PUT /items/:name] answers 404 and writes nothing when no item has the
    name.  Otherwise it changes the first item with the name and no other:
    that item gets every property of the request body, keeps each of its
    own properties the body does not mention, and is returned with status
    200. *)
Theorem put_items_merges_into_first_match (name : string)
    (req_body : gmap string json) (w : World) :
  (Forall (λ o, ¬ has_name name o) (items_file w) →
   serve (put_items name req_body) no_faults w
   = Some (w, {| status := 404;
                 payload := Some (JObj {[ "error" := JStr "Item not found" ]}) |}))
  ∧ (∀ i o,
       items_file w !! i = Some o →
       has_name name o →
       (∀ j o', items_file w !! j = Some o' → (j < i)%nat → ¬ has_name name o') →
       serve (put_items name req_body) no_faults w
       = Some ({| items_file := <[i := req_body ∪ o]> (items_file w);
                  transactions_file := transactions_file w |},
               {| status := 200; payload := Some (JObj (req_body ∪ o)) |})
       ∧ ∀ k, (req_body ∪ o) !! k
              = match req_body !! k with Some v => Some v | None => o !! k end).
Proof.
  split.
  - intros Hnone. rewrite put_items_not_found by done.
    by rewrite error_response_payload.
  - intros i o Ho Hname Hfirst. split; [by apply put_items_found|].
    intros k. destruct (req_body !! k) as [v|] eqn:Hk.
    + by erewrite lookup_union_Some_l.
    + by rewrite lookup_union_r.
Qed.

Lemma put_items_merges_into_first_match_witness :
  serve (put_items "Widget" {[ "amount" := JNum 4 ]}) no_faults widget_store
  = Some ({| items_file :=
               <[0%nat := {[ "amount" := JNum 4 ]}
                          ∪ {[ "id" := JNum 1700000000000; "name" := JStr "Widget";
                               "amount" := JNum 10 ]}]> (items_file widget_store);
             transactions_file := transactions_file widget_store |},
          {| status := 200;
             payload := Some (JObj ({[ "amount" := JNum 4 ]}
                          ∪ {[ "id" := JNum 1700000000000; "name" := JStr "Widget";
                               "amount" := JNum 10 ]})) |}).
Proof.
  apply (put_items_merges_into_first_match "Widget" {[ "amount" := JNum 4 ]} widget_store).
  - reflexivity.
  - vm_compute. reflexivity.
  - intros j o' _ Hj. lia.
Defined.

(** X6.  An update that does not rename the item can be repeated: sent a second
    time it finds the same item, writes the same file and gives the same
    answer. *)
Theorem put_items_twice (name : string) (req_body : gmap string json)
    (w w1 : World) (r1 : Response) :
  req_body !! "name" = None ∨ req_body !! "name" = Some (JStr name) →
  serve (put_items name req_body) no_faults w = Some (w1, r1) →
  serve (put_items name req_body) no_faults w1 = Some (w1, r1).
Proof.
  intros Hbody Hfirst.
  destruct (list_find (name_is (VString name)) (JSON_parse (items_file w)))
    as [[i item]|] eqn:Hfind.
  - apply find_by_name in Hfind as (o & -> & Ho & Hname & Hleast).
    rewrite (put_items_found _ _ _ _ _ Ho Hname Hleast) in Hfirst.
    injection Hfirst as <- <-.
    assert ((i < length (items_file w))%nat) as Hi by (by eapply lookup_lt_Some).
    rewrite (put_items_found name req_body _ i (req_body ∪ o));
      cbn [items_file transactions_file].
    + rewrite list_insert_insert_eq. rewrite (assoc_L (∪)), (idemp_L (∪)). done.
    + by apply list_lookup_insert_eq.
    + apply has_name_lookup. apply has_name_lookup in Hname.
      destruct Hbody as [Hnone|Hsame].
      * by rewrite lookup_union_r.
      * by erewrite lookup_union_Some_l.
    + intros j o' Ho' Hj. rewrite list_lookup_insert_ne in Ho' by lia.
      by apply (Hleast j).
  - apply find_by_name_None in Hfind.
    rewrite put_items_not_found in Hfirst by done. injection Hfirst as <- <-.
    by apply put_items_not_found.
Qed.

Lemma put_items_twice_witness :
  serve (put_items "Widget" {[ "amount" := JNum 4 ]}) no_faults
    {| items_file :=
         [ {[ "id" := JNum 1700000000000; "name" := JStr "Widget"; "amount" := JNum 4 ]} ];
       transactions_file := [] |}
  = Some ({| items_file :=
               [ {[ "id" := JNum 1700000000000; "name" := JStr "Widget";
                    "amount" := JNum 4 ]} ];
             transactions_file := [] |},
          {| status := 200;
             payload := Some (JObj {[ "id" := JNum 1700000000000; "name" := JStr "Widget";
                                      "amount" := JNum 4 ]}) |}).
Proof.
  apply (put_items_twice "Widget" {[ "amount" := JNum 4 ]} widget_store).
  - left. reflexivity.
  - vm_compute. reflexivity.
Defined.

(** ** What every route has in common *)

(** Case analysis of a served request: the handler is unfolded and every
    test it makes is split. *)
Ltac split_route H :=
  unfold serve in H; cbn [handler] in H;
  unfold get_items, post_items, put_items, delete_items, take_item, get_transactions,
    put_transactions, delete_transactions, record_transaction in H;
  cbn [body catch run read write modelled] in H; unfold later, convert, modelled in H;
  repeat (first [case_match | progress simplify_eq | progress cbn [run] in *]);
  cbn [status json_response error_response empty_response array_response
       items_file transactions_file write handler catch].

(** The ways a request to any route can end. *)
Lemma route_outcome (q : request) (faults : nat → option string) (w w' : World)
    (r : Response) :
  serve (handler q) faults w = Some (w', r) →
  (status r = 500
   ∧ ((∃ n e, faults n = Some e)
      ∨ ((∃ req_body, q = Take req_body) ∨ q = ListTransactions)
        ∧ r = catch (handler q) not_primitive)
   ∧ (w' = w ∨ ∃ req_body, q = Take req_body))
  ∨ ((status r = 400 ∨ status r = 404) ∧ w' = w)
  ∨ ((status r = 200 ∨ status r = 201 ∨ status r = 204)
     ∧ faults 0%nat = None).
Proof. intros Hserve. destruct q; split_route Hserve; eauto 12. Qed.

Lemma route_files (q : request) (faults : nat → option string) (w w' : World)
    (r : Response) :
  serve (handler q) faults w = Some (w', r) →
  match q with
  | ListItems | ListTransactions => w' = w
  | Create _ _ | Update _ _ | Delete _ => transactions_file w' = transactions_file w
  | UpdateTransaction _ _ | DeleteTransaction _ => items_file w' = items_file w
  | Take _ => True
  end.
Proof. intros Hserve. destruct q; split_route Hserve; done. Qed.

(** X7.  A 400 or a 404 means that nothing was written: whatever the route and
    whatever [fs] calls fail, both files are as they were. *)
Theorem client_errors_write_nothing (q : request) (faults : nat → option string)
    (w w' : World) (r : Response) :
  serve (handler q) faults w = Some (w', r) →
  status r = 400 ∨ status r = 404 →
  w' = w.
Proof.
  intros Hserve Hstatus.
  apply route_outcome in Hserve as [(H500 & _)|[[_ ->]|[Hok _]]]; [lia|done|lia].
Qed.

Lemma client_errors_write_nothing_witness :
  serve (handler (Take take_unknown_item_bad_amount)) no_faults widget_store
  = Some (widget_store, error_response 404 "Item not found")
  ∧ widget_store = widget_store.
Proof.
  split; [vm_compute; reflexivity|].
  refine (client_errors_write_nothing (Take take_unknown_item_bad_amount) no_faults
            widget_store widget_store (error_response 404 "Item not found") _ _).
  - vm_compute. reflexivity.
  - right. reflexivity.
Defined.

(** X8.  A 500 is the answer of a [catch], to an [fs] call that threw or to
    a conversion that threw.  With no failing [fs] call only take-item and
    the listing of the ledger answer 500, with the message of the
    TypeError, and no other route ever does.  On every route but take-item
    a 500 means that nothing was written (a route with one write has it as
    its last call, and a failed write has no effect). *)
Theorem server_errors_are_caught_errors (q : request) (faults : nat → option string)
    (w w' : World) (r : Response) :
  serve (handler q) faults w = Some (w', r) →
  status r = 500 →
  ((∃ n e, faults n = Some e)
   ∨ ((∃ req_body, q = Take req_body) ∨ q = ListTransactions)
     ∧ r = catch (handler q) not_primitive)
  ∧ ((∀ req_body, q ≠ Take req_body) → w' = w).
Proof.
  intros Hserve Hstatus.
  apply route_outcome in Hserve as [(_ & Hthrown & Hw)|[[H4 _]|[Hok _]]]; [|lia|lia].
  split; [done|]. intros Hq. destruct Hw as [->|[b ->]]; [done|]. by destruct (Hq b).
Qed.

Lemma server_errors_are_caught_errors_witness :
  let q := Take {[ "itemName" := JStr "Widget";
                   "amount" := JObj {[ "toString" := JNum 1 ]} ]} in
  let r := error_response 500
             "Error processing transaction Cannot convert object to primitive value" in
  serve (handler q) no_faults widget_store = Some (widget_store, r)
  ∧ ((∃ n e, no_faults n = Some e)
     ∨ ((∃ req_body, q = Take req_body) ∨ q = ListTransactions)
       ∧ r = catch (handler q) not_primitive)
  ∧ ((∀ req_body, q ≠ Take req_body) → widget_store = widget_store).
Proof.
  intros q r. split; [vm_compute; reflexivity|].
  refine (server_errors_are_caught_errors q no_faults widget_store widget_store r _ _).
  - vm_compute. reflexivity.
  - reflexivity.
Defined.

(** X9.  Each route writes its own file at most: the two listings write
    nothing, create, update and delete of items leave the ledger alone, and
    the update and delete of a transaction leave the items alone (so a
    corrected or removed ledger entry gives no stock back).  This holds
    whatever [fs] calls fail. *)
Theorem routes_write_their_own_file (q : request) (faults : nat → option string)
    (w w' : World) (r : Response) :
  serve (handler q) faults w = Some (w', r) →
  match q with
  | ListItems | ListTransactions => w' = w
  | Create _ _ | Update _ _ | Delete _ => transactions_file w' = transactions_file w
  | UpdateTransaction _ _ | DeleteTransaction _ => items_file w' = items_file w
  | Take _ => True
  end.
Proof. apply route_files. Qed.

Lemma routes_write_their_own_file_witness :
  serve (handler (DeleteTransaction "0")) no_faults two_entry_ledger
  = Some ({| items_file := [];
             transactions_file := delete 0%nat (transactions_file two_entry_ledger) |},
          {| status := 204; payload := None |})
  ∧ items_file
      {| items_file := [];
         transactions_file := delete 0%nat (transactions_file two_entry_ledger) |}
    = items_file two_entry_ledger.
Proof.
  split; [vm_compute; reflexivity|].
  refine (routes_write_their_own_file (DeleteTransaction "0") no_faults two_entry_ledger
            _ {| status := 204; payload := None |} _).
  vm_compute. reflexivity.
Defined.

(** ** Numbers written out and read back *)

Lemma read_digits_acc (d : Decimal.uint) (a : Z) :
  0 < a →
  read_digits 10 (Some a) (NilEmpty.string_of_uint d)
  = Some (Z.pos (Pos.of_uint_acc d (Z.to_pos a))).
Proof.
  revert a. induction d as [|d IH|d IH|d IH|d IH|d IH|d IH|d IH|d IH|d IH|d IH];
    intros a Ha; cbn [NilEmpty.string_of_uint read_digits Pos.of_uint_acc].
  1: by rewrite Z2Pos.id.
  all: match goal with
       | |- context [digit_value 10 ?c] =>
           let v := eval vm_compute in (digit_value 10 c) in
           change (digit_value 10 c) with v
       end; cbn [default from_option id]; rewrite IH by lia; do 3 f_equal; lia.
Qed.

Lemma read_digits_of_uint (d : Decimal.uint) :
  read_digits 10 (Some 0) (NilEmpty.string_of_uint d) = Some (Z.of_N (Pos.of_uint d)).
Proof.
  induction d as [|d IH|d IH|d IH|d IH|d IH|d IH|d IH|d IH|d IH|d IH];
    cbn [NilEmpty.string_of_uint read_digits Pos.of_uint]; [done|..].
  all: match goal with
       | |- context [digit_value 10 ?c] =>
           let v := eval vm_compute in (digit_value 10 c) in
           change (digit_value 10 c) with v
       end; cbn [default from_option id].
  1: exact IH.
  all: by rewrite read_digits_acc.
Qed.

Ltac eval_char_tests :=
  repeat match goal with
    | |- context [is_white_space (Ascii ?a ?b ?c ?d ?e ?f ?g ?h)] =>
        let v := eval vm_compute in (is_white_space (Ascii a b c d e f g h)) in
        change (is_white_space (Ascii a b c d e f g h)) with v
    | |- context [is_ascii (Ascii ?a ?b ?c ?d ?e ?f ?g ?h)] =>
        let v := eval vm_compute in (is_ascii (Ascii a b c d e f g h)) in
        change (is_ascii (Ascii a b c d e f g h)) with v
    | |- context [Ascii.eqb (Ascii ?a ?b ?c ?d ?e ?f ?g ?h) ?y] =>
        let v := eval vm_compute in (Ascii.eqb (Ascii a b c d e f g h) y) in
        change (Ascii.eqb (Ascii a b c d e f g h) y) with v
    | |- context [digit_value 10 (Ascii ?a ?b ?c ?d ?e ?f ?g ?h)] =>
        let v := eval vm_compute in (digit_value 10 (Ascii a b c d e f g h)) in
        change (digit_value 10 (Ascii a b c d e f g h)) with v
    end.

Lemma parseInt_string_digits (d : Decimal.uint) :
  d ≠ Decimal.Nil →
  parseInt_string (NilEmpty.string_of_uint d) 10
  = match Pos.of_uint d with
    | N0 => Some (Num 0)
    | Npos p => if safe (Z.pos p) then Some (Num (Z.pos p)) else None
    end.
Proof.
  intros Hd.
  assert (read_digits 10 None (NilEmpty.string_of_uint d)
          = Some (Z.of_N (Pos.of_uint d))) as Hread.
  { rewrite <- read_digits_of_uint. by destruct d. }
  destruct d; [done|..]; cbn [NilEmpty.string_of_uint] in *.
  all: unfold parseInt_string; cbn [trim_start];
    repeat (progress (eval_char_tests;
      cbn [negb orb andb Z.eqb Z.leb Z.compare Pos.eqb Pos.compare Pos.compare_cont]));
    rewrite Hread; destruct (Pos.of_uint _) as [|p]; [done|];
    cbn [Z.of_N]; by rewrite Z.mul_1_l.
Qed.

Lemma parseInt_string_negative_digits (d : Decimal.uint) :
  d ≠ Decimal.Nil →
  parseInt_string (String "-" (NilEmpty.string_of_uint d)) 10
  = match Pos.of_uint d with
    | N0 => Some (Num 0)
    | Npos p => if safe (Z.pos p) then Some (Num (Z.neg p)) else None
    end.
Proof.
  intros Hd.
  assert (read_digits 10 None (NilEmpty.string_of_uint d)
          = Some (Z.of_N (Pos.of_uint d))) as Hread.
  { rewrite <- read_digits_of_uint. by destruct d. }
  unfold parseInt_string; cbn [trim_start];
    repeat (progress (eval_char_tests;
      cbn [negb orb andb Z.eqb Z.leb Z.compare Pos.eqb Pos.compare Pos.compare_cont])).
  rewrite Hread. destruct (Pos.of_uint _) as [|p]; [done|]. cbn [Z.of_N]. done.
Qed.

(** A number given where a string is expected is read back as itself:
    [parseInt(n, 10)] is [n] for every integer within the exact range. *)
Lemma parseInt_of_number (z : Z) :
  safe z = true → parseInt (VNumber (Num z)) 10 = Some (Num z).
Proof.
  intros Hsafe. unfold parseInt, ToString, Number_toString. rewrite Hsafe.
  destruct z as [|p|p]; [done|..]; cbn [Z.to_int NilZero.string_of_int].
  - pose proof (DecimalPos.Unsigned.to_uint_nonnil p) as Hnil.
    assert (NilZero.string_of_uint (Pos.to_uint p)
            = NilEmpty.string_of_uint (Pos.to_uint p)) as ->
      by (unfold NilZero.string_of_uint; by destruct (Pos.to_uint p)).
    rewrite parseInt_string_digits, DecimalPos.Unsigned.of_to by done.
    by rewrite Hsafe.
  - pose proof (DecimalPos.Unsigned.to_uint_nonnil p) as Hnil.
    assert (NilZero.string_of_uint (Pos.to_uint p)
            = NilEmpty.string_of_uint (Pos.to_uint p)) as ->
      by (unfold NilZero.string_of_uint; by destruct (Pos.to_uint p)).
    rewrite parseInt_string_negative_digits, DecimalPos.Unsigned.of_to by done.
    assert (safe (Z.pos p) = true) as ->; [|done].
    unfold safe in *. apply andb_true_iff in Hsafe as [?%Z.leb_le ?%Z.leb_le].
    apply andb_true_iff. rewrite !Z.leb_le. unfold MAX_SAFE in *. lia.
Qed.

Lemma parseInt_safe (v : value) (radix z : Z) :
  parseInt v radix = Some (Num z) → safe z = true.
Proof.
  unfold parseInt, parseInt_string. intros H.
  repeat case_match; simplify_eq;
    match goal with Hs : safe ?m = true |- _ => revert Hs end;
    unfold safe; rewrite !andb_true_iff, !Z.leb_le; lia.
Qed.

(** X10.  An amount sent as a number and the same amount sent as its decimal
    text are read alike: for every integer [z] within the exact range,
    [parseInt(z, 10)] is [z], and so is [parseInt] of the text of [z]. *)
Theorem parseInt_reads_back_numbers (z : Z) :
  safe z = true →
  parseInt (VNumber (Num z)) 10 = Some (Num z)
  ∧ ∃ s, ToString (VNumber (Num z)) = Some s ∧ parseInt (VString s) 10 = Some (Num z).
Proof.
  intros Hsafe. pose proof (parseInt_of_number z Hsafe) as Hparse.
  split; [done|]. unfold parseInt in Hparse.
  destruct (ToString (VNumber (Num z))) as [s|]; [|done]. by exists s.
Qed.

Lemma parseInt_reads_back_numbers_witness :
  parseInt (VNumber (Num 42)) 10 = Some (Num 42)
  ∧ ∃ s, ToString (VNumber (Num 42)) = Some s ∧ parseInt (VString s) 10 = Some (Num 42).
Proof. apply (parseInt_reads_back_numbers 42). reflexivity. Defined.

(** ** A take that succeeds *)

Lemma stringify_or_else (req_body : gmap string json) (k : string) (d : string) :
  stringify_value
    (if negb (truthy (prop req_body k)) then VString d else prop req_body k)
  = Some (or_else (req_body !! k) (JStr d)).
Proof.
  unfold prop, or_else. destruct (req_body !! k) as [j|]; [|done].
  destruct (truthy (of_json j)); [apply stringify_of_json|done].
Qed.

Lemma stringify_else_or (req_body : gmap string json) (k : string) (d : string) :
  stringify_value
    (if truthy (prop req_body k) then prop req_body k else VString d)
  = Some (or_else (req_body !! k) (JStr d)).
Proof.
  unfold prop, or_else. destruct (req_body !! k) as [j|]; [|done].
  destruct (truthy (of_json j)); [apply stringify_of_json|done].
Qed.

Lemma take_item_succeeds (w : World) (req_body : gmap string json)
    (itemIndex : nat) (item : gmap string value) (stock requested : Z)
    (itemName : json) (person name : string) :
  req_body !! "itemName" = Some itemName →
  truthy (of_json itemName) = true →
  list_find (name_is (of_json itemName)) (JSON_parse (items_file w))
    = Some (itemIndex, item) →
  ToNumber (get item "amount") = Some (Num stock) →
  safe stock = true →
  parseInt (prop req_body "amount") 10 = Some (Num requested) →
  0 < requested →
  requested ≤ stock →
  ToString (of_json (or_else (req_body !! "personName") (JStr "System"))) = Some person →
  ToString (get item "name") = Some name →
  serve (take_item req_body) no_faults w =
    Some ({| items_file :=
               alter (<["amount" := JNum (stock - requested)]>) itemIndex (items_file w);
             transactions_file :=
               transactions_file w ++
               [ {[ "personName" := or_else (req_body !! "personName") (JStr "System");
                    "itemName" := itemName;
                    "amount" := JNum requested;
                    "date" := or_else (req_body !! "date") (JStr "") ]} ] |},
          {| status := 200;
             payload := Some (JObj
               {[ "message" := JStr (took_message person requested name (stock - requested));
                  "remaining" := JNum (stock - requested) ]}) |}).
Proof.
  intros HitemName Hname Hfind Hstock Hexact Hparse Hpos Hle Hperson Hitem.
  assert (prop req_body "itemName" = of_json itemName) as Hprop
    by (unfold prop; by rewrite HitemName).
  pose proof (parseInt_positive_truthy _ _ Hparse Hpos) as Hamount.
  pose proof (parseInt_safe _ _ _ Hparse) as Hsafe.
  assert (number_lt (Num stock) (Num requested) = false) as Hlt
    by (cbn; apply Z.ltb_ge; lia).
  unfold serve.
  erewrite take_item_valid_run;
    [|by rewrite Hprop|done|by rewrite Hprop|done| |done|done| |done].
  2:{ cbn. apply Z.leb_gt. lia. }
  2:{ apply andb_true_iff. split; [done|]. by apply exact_remaining. }
  cbn [run record_transaction later no_faults read write number_sub
       items_file transactions_file].
  assert (ToString (if negb (truthy (prop req_body "personName")) then VString "System"
                    else prop req_body "personName") = Some person) as Hperson'.
  { rewrite <- Hperson. unfold prop, or_else.
    destruct (req_body !! "personName") as [j|]; [|done].
    by destruct (truthy (of_json j)). }
  rewrite Hperson', (ToString_not_thrown _ _ Hperson').
  assert (ToString (VNumber (Num requested))
          = Some (NilZero.string_of_int (Z.to_int requested))) as ->
    by (cbn; by rewrite Hsafe).
  assert (get (<["amount" := VNumber (Num (stock - requested))]> item) "name"
          = get item "name") as -> by (unfold get; by rewrite lookup_insert_ne).
  rewrite Hitem, (ToString_not_thrown _ _ Hitem). cbn [convert modelled].
  assert (get (<["amount" := VNumber (Num (stock - requested))]> item) "amount"
          = VNumber (Num (stock - requested))) as ->
    by (unfold get; by rewrite lookup_insert_eq).
  cbn [strict_eq].
  assert (JSON_stringify
            (JSON_parse (transactions_file w) ++
             [ {[ "personName" := if negb (truthy (prop req_body "personName"))
                                  then VString "System" else prop req_body "personName";
                  "itemName" := prop req_body "itemName";
                  "amount" := VNumber (Num requested);
                  "date" := if truthy (prop req_body "date") then prop req_body "date"
                            else VString "" ]} ])
          = transactions_file w ++
            [ {[ "personName" := or_else (req_body !! "personName") (JStr "System");
                 "itemName" := itemName;
                 "amount" := JNum requested;
                 "date" := or_else (req_body !! "date") (JStr "") ]} ]) as ->.
  { unfold JSON_stringify. rewrite fmap_app.
    fold (JSON_stringify (JSON_parse (transactions_file w))). rewrite stringify_parse.
    f_equal. cbn [fmap list_fmap]. f_equal. unfold stringify_object.
    erewrite omap_insert_Some by apply stringify_or_else.
    erewrite omap_insert_Some by (rewrite Hprop; apply stringify_of_json).
    erewrite omap_insert_Some by reflexivity.
    erewrite omap_singleton_Some by apply stringify_else_or. done. }
  unfold took_message, json_response, stringify_object.
  destruct (stock - requested =? 0); cbn [run];
    (erewrite omap_insert_Some by reflexivity);
    (erewrite omap_singleton_Some by reflexivity); done.
Qed.

(** X11.  When a take-item request passes its four checks, its stock is
    within the exact range, its taker has a string form ([person]) and no
    [fs] call fails, the answer is 200 with the stock that remains and a
    message naming the taker, the quantity and the item, which adds that the
    item is out of stock exactly when nothing remains.  The first item with
    the name
    has its amount lowered by the quantity and is otherwise as it was; the
    ledger gains one entry at its end, with the taker ("System" when the
    request names none), the item name, the parsed quantity and the date of
    the request (the empty string when it gives none). *)
Theorem take_item_success (w : World) (req_body : gmap string json)
    (itemIndex : nat) (item : gmap string value) (stock requested : Z)
    (itemName : json) (person name : string) :
  req_body !! "itemName" = Some itemName →
  truthy (of_json itemName) = true →
  list_find (name_is (of_json itemName)) (JSON_parse (items_file w))
    = Some (itemIndex, item) →
  ToNumber (get item "amount") = Some (Num stock) →
  safe stock = true →
  parseInt (prop req_body "amount") 10 = Some (Num requested) →
  0 < requested →
  requested ≤ stock →
  ToString (of_json (or_else (req_body !! "personName") (JStr "System"))) = Some person →
  ToString (get item "name") = Some name →
  serve (take_item req_body) no_faults w =
    Some ({| items_file :=
               alter (<["amount" := JNum (stock - requested)]>) itemIndex (items_file w);
             transactions_file :=
               transactions_file w ++
               [ {[ "personName" := or_else (req_body !! "personName") (JStr "System");
                    "itemName" := itemName;
                    "amount" := JNum requested;
                    "date" := or_else (req_body !! "date") (JStr "") ]} ] |},
          {| status := 200;
             payload := Some (JObj
               {[ "message" := JStr (took_message person requested name (stock - requested));
                  "remaining" := JNum (stock - requested) ]}) |}).
Proof. apply take_item_succeeds. Qed.

Lemma take_item_success_witness :
  serve (take_item {[ "itemName" := JStr "Widget"; "amount" := JStr "10" ]}) no_faults
    widget_store =
    Some ({| items_file :=
               alter (<["amount" := JNum (10 - 10)]>) 0%nat (items_file widget_store);
             transactions_file :=
               transactions_file widget_store ++
               [ {[ "personName" := JStr "System";
                    "itemName" := JStr "Widget";
                    "amount" := JNum 10;
                    "date" := JStr "" ]} ] |},
          {| status := 200;
             payload := Some (JObj
               {[ "message" :=
                    JStr "System took 10 Widget(s). Widget is now out of stock!";
                  "remaining" := JNum (10 - 10) ]}) |}).
Proof.
  refine (take_item_success widget_store
            {[ "itemName" := JStr "Widget"; "amount" := JStr "10" ]}
            0%nat _ 10 10 (JStr "Widget") "System" "Widget" _ _ _ _ _ _ _ _ _ _).
  - reflexivity.
  - reflexivity.
  - vm_compute. reflexivity.
  - reflexivity.
  - reflexivity.
  - reflexivity.
  - lia.
  - lia.
  - reflexivity.
  - reflexivity.
Defined.

(** X12.  Whatever happens to a take-item request, also when a conversion
    throws or [fs] calls fail (a failed call having had no effect on the
    file), it changes at most the amount of items: the items file keeps its
    length, every item keeps each property other than [amount], and the old
    ledger is the beginning of the new one, which is at most one entry
    longer. *)
Theorem take_item_touches_only_amounts (w w' : World) (req_body : gmap string json)
    (faults : nat → option string) (r : Response) :
  serve (take_item req_body) faults w = Some (w', r) →
  length (items_file w') = length (items_file w)
  ∧ (∀ j o', items_file w' !! j = Some o' →
       ∃ o, items_file w !! j = Some o ∧ ∀ k, k ≠ "amount" → o' !! k = o !! k)
  ∧ transactions_file w `prefix_of` transactions_file w'
  ∧ (length (transactions_file w') ≤ length (transactions_file w) + 1)%nat.
Proof.
  intros Hserve.
  apply take_item_outcome in Hserve
    as [[-> _]|(i & item & stock & requested & _ & _ & _ & _ & _ & _ & _ & Hitems & Hledger)].
  - split_and!; [done| |done|lia]. intros j o' Ho'. eauto.
  - rewrite Hitems. split_and!.
    + apply length_alter.
    + intros j o' Ho'. destruct (decide (i = j)) as [<-|Hne].
      * rewrite list_lookup_alter_eq in Ho'.
        destruct (items_file w !! i) as [o|]; [|done]. injection Ho' as <-.
        exists o. split; [done|]. intros k Hk. unfold set_amount.
        destruct (stringify_value _); [by rewrite lookup_insert_ne|done].
      * rewrite list_lookup_alter_ne in Ho' by done. eauto.
    + destruct Hledger as [(-> & _)|[(entry & -> & _) _]]; [done|].
      by apply prefix_app_r.
    + destruct Hledger as [(-> & _)|[(entry & -> & _) _]]; [lia|].
      rewrite length_app. cbn. lia.
Qed.

Lemma take_item_touches_only_amounts_witness :
  let w' := {| items_file :=
                 [ {[ "id" := JNum 1700000000000; "name" := JStr "Widget";
                      "amount" := JNum 7 ]} ];
               transactions_file := [] |} in
  length (items_file w') = length (items_file widget_store)
  ∧ (∀ j o', items_file w' !! j = Some o' →
       ∃ o, items_file widget_store !! j = Some o ∧ ∀ k, k ≠ "amount" → o' !! k = o !! k)
  ∧ transactions_file widget_store `prefix_of` transactions_file w'
  ∧ (length (transactions_file w') ≤ length (transactions_file widget_store) + 1)%nat.
Proof.
  refine (take_item_touches_only_amounts widget_store _ take_three_widgets
            fourth_call_fails
            (error_response 500 "Error processing transaction EIO: i/o error") _).
  vm_compute. reflexivity.
Defined.

(** ** Requests one after the other *)

Lemma take_item_not_found (w : World) (req_body : gmap string json) (name : string) :
  req_body !! "itemName" = Some (JStr name) →
  name ≠ "" →
  truthy (prop req_body "amount") = true →
  Forall (λ o, ¬ has_name name o) (items_file w) →
  serve (take_item req_body) no_faults w
  = Some (w, error_response 404 "Item not found").
Proof.
  intros HitemName Hname Hamount Hnone%find_by_name_None.
  unfold serve, take_item; cbn [body catch].
  assert (prop req_body "itemName" = VString name) as ->
    by (unfold prop; by rewrite HitemName).
  cbn [truthy]. apply String.eqb_neq in Hname. rewrite Hname, Hamount.
  cbn [negb orb run read no_faults]. by rewrite Hnone.
Qed.

(** X13.  An item created under a name no stored item has is the one a
    take-item for that name then finds: a create of [n], within the exact
    range, followed by a take of [k], [0 < k <= n], leaves the new item with
    [n - k] and answers 200; the ledger entry is signed "System" when the
    request names no one. *)
Theorem create_then_take (w : World) (name : string) (n k now : Z) :
  Forall (λ o, ¬ has_name name o) (items_file w) →
  name ≠ "" →
  0 < k → k ≤ n → safe n = true →
  serve_all
    [ (Create {[ "name" := JStr name; "amount" := JNum n ]} now, no_faults);
      (Take {[ "itemName" := JStr name; "amount" := JNum k ]}, no_faults) ] w
  = Some ({| items_file :=
               items_file w ++
               [ {[ "id" := JNum now; "name" := JStr name; "amount" := JNum (n - k) ]} ];
             transactions_file :=
               transactions_file w ++
               [ {[ "personName" := JStr "System"; "itemName" := JStr name;
                    "amount" := JNum k; "date" := JStr "" ]} ] |},
          [ {| status := 201;
               payload := Some (JObj {[ "id" := JNum now; "name" := JStr name;
                                        "amount" := JNum n ]}) |};
            {| status := 200;
               payload := Some (JObj
                 {[ "message" := JStr (took_message "System" k name (n - k));
                    "remaining" := JNum (n - k) ]}) |} ]).
Proof.
  intros Hfresh Hname Hk Hkn Hsafen.
  assert (safe k = true) as Hsafe.
  { unfold safe, MAX_SAFE in *. rewrite !andb_true_iff, !Z.leb_le in *. lia. }
  set (record := {[ "id" := JNum now; "name" := JStr name; "amount" := JNum n ]}
                 : gmap string json).
  assert (stringify_object
            {[ "id" := VNumber (Num now);
               "name" := prop {[ "name" := JStr name; "amount" := JNum n ]} "name";
               "amount" := prop {[ "name" := JStr name; "amount" := JNum n ]} "amount" ]}
          = record) as Hrecord.
  { unfold stringify_object, prop.
    rewrite lookup_insert_eq, lookup_insert_ne, lookup_singleton_eq by done.
    repeat (erewrite omap_insert_Some by reflexivity).
    by erewrite omap_singleton_Some by reflexivity. }
  cbn [serve_all handler]. rewrite post_items_serve. cbv zeta.
  unfold json_response. rewrite Hrecord.
  erewrite (take_item_succeeds _ _ (length (items_file w)) (parse_object record) n k
              (JStr name) "System" name); cbn [items_file transactions_file].
  - do 3 f_equal.
    replace (length (items_file w)) with (length (items_file w) + 0)%nat by lia.
    rewrite alter_app_r. cbn. done.
  - reflexivity.
  - cbn. by apply negb_true_iff, String.eqb_neq.
  - apply (find_by_name name). exists record. split_and!.
    + done.
    + by rewrite lookup_app_r, Nat.sub_diag by lia.
    + by apply has_name_lookup.
    + intros j o' Ho' Hj. rewrite lookup_app_l in Ho' by done.
      by eapply (Forall_lookup_1 _ _ _ _ Hfresh).
  - reflexivity.
  - done.
  - change (prop {[ "itemName" := JStr name; "amount" := JNum k ]} "amount")
      with (VNumber (Num k)). by apply parseInt_of_number.
  - done.
  - done.
  - reflexivity.
  - reflexivity.
Qed.

Lemma create_then_take_witness :
  serve_all
    [ (Create {[ "name" := JStr "Gadget"; "amount" := JNum 5 ]} 1700000000001, no_faults);
      (Take {[ "itemName" := JStr "Gadget"; "amount" := JNum 2 ]}, no_faults) ]
    widget_store
  = Some ({| items_file :=
               items_file widget_store ++
               [ {[ "id" := JNum 1700000000001; "name" := JStr "Gadget";
                    "amount" := JNum (5 - 2) ]} ];
             transactions_file :=
               transactions_file widget_store ++
               [ {[ "personName" := JStr "System"; "itemName" := JStr "Gadget";
                    "amount" := JNum 2; "date" := JStr "" ]} ] |},
          [ {| status := 201;
               payload := Some (JObj {[ "id" := JNum 1700000000001; "name" := JStr "Gadget";
                                        "amount" := JNum 5 ]}) |};
            {| status := 200;
               payload := Some (JObj
                 {[ "message" := JStr (took_message "System" 2 "Gadget" (5 - 2));
                    "remaining" := JNum (5 - 2) ]}) |} ]).
Proof.
  apply (create_then_take widget_store "Gadget" 5 2 1700000000001).
  - apply Forall_cons_2; [|apply Forall_nil_2]. vm_compute. discriminate.
  - discriminate.
  - lia.
  - lia.
  - reflexivity.
Defined.

(** X14.  Once [DELETE /items/:name] has answered, no item has the name: a
    take-item for it whose amount is truthy (one whose amount is missing, 0
    or empty is answered 400 before the lookup) and an update for it are
    both answered 404 and write nothing. *)
Theorem deleted_items_are_gone (w : World) (name : string)
    (take_body put_body : gmap string json) :
  take_body !! "itemName" = Some (JStr name) →
  name ≠ "" →
  truthy (prop take_body "amount") = true →
  let w1 := {| items_file := filter (λ o, ¬ has_name name o) (items_file w);
               transactions_file := transactions_file w |} in
  serve (delete_items name) no_faults w = Some (w1, {| status := 204; payload := None |})
  ∧ serve (take_item take_body) no_faults w1
    = Some (w1, {| status := 404;
                   payload := Some (JObj {[ "error" := JStr "Item not found" ]}) |})
  ∧ serve (put_items name put_body) no_faults w1
    = Some (w1, {| status := 404;
                   payload := Some (JObj {[ "error" := JStr "Item not found" ]}) |}).
Proof.
  intros HitemName Hname Hamount w1. split; [apply delete_items_serve|].
  assert (Forall (λ o, ¬ has_name name o) (items_file w1)) as Hgone.
  { apply Forall_forall. by intros o [? _]%list_elem_of_filter. }
  rewrite <- error_response_payload. split.
  - by apply (take_item_not_found _ _ name).
  - by apply put_items_not_found.
Qed.

Lemma deleted_items_are_gone_witness :
  let w1 := {| items_file := filter (λ o, ¬ has_name "Widget" o) (items_file widget_store);
               transactions_file := transactions_file widget_store |} in
  serve (delete_items "Widget") no_faults widget_store
  = Some (w1, {| status := 204; payload := None |})
  ∧ serve (take_item take_three_widgets) no_faults w1
    = Some (w1, {| status := 404;
                   payload := Some (JObj {[ "error" := JStr "Item not found" ]}) |})
  ∧ serve (put_items "Widget" ∅) no_faults w1
    = Some (w1, {| status := 404;
                   payload := Some (JObj {[ "error" := JStr "Item not found" ]}) |}).
Proof.
  apply (deleted_items_are_gone widget_store "Widget" take_three_widgets ∅).
  - reflexivity.
  - discriminate.
  - reflexivity.
Defined.

(** ** Listing *)

Lemma get_items_serve (w : World) :
  serve get_items no_faults w
  = Some (w, {| status := 200; payload := Some (JArr (JObj <$> items_file w)) |}).
Proof.
  unfold serve, get_items; cbn [body catch run read no_faults].
  unfold array_response. by rewrite stringify_parse.
Qed.

(** X15.  What [POST /items] answers is what [GET /items] then lists last: the
    item as stored, after every item that was there, in their order. *)
Theorem created_item_is_listed (w : World) (req_body : gmap string json) (now : Z) :
  let stored :=
    stringify_object {[ "id" := VNumber (Num now);
                        "name" := prop req_body "name";
                        "amount" := prop req_body "amount" ]} in
  serve_all [ (Create req_body now, no_faults); (ListItems, no_faults) ] w
  = Some ({| items_file := items_file w ++ [stored];
             transactions_file := transactions_file w |},
          [ {| status := 201; payload := Some (JObj stored) |};
            {| status := 200;
               payload := Some (JArr (JObj <$> items_file w ++ [stored])) |} ]).
Proof.
  intros stored. cbn [serve_all handler].
  rewrite post_items_serve. cbv zeta. cbv iota beta. by rewrite get_items_serve.
Qed.

(** The earlier revision lists the ledger as it is stored. *)
Lemma get_transactions_v1_serve (w : World) :
  serve get_transactions_v1 no_faults w
  = Some (w, {| status := 200;
                payload := Some (JArr (JObj <$> transactions_file w)) |}).
Proof.
  unfold serve, get_transactions_v1; cbn [body catch run read no_faults].
  unfold array_response. by rewrite stringify_parse.
Qed.

(** X16.  [GET /transactions] answers with the stored entries, each exactly
    once, whatever their dates, and leaves the files as they are: the
    earlier revision lists them in their stored order, the later one lists
    the same entries rearranged by its sort. *)
Theorem get_transactions_keeps_every_entry (w : World) :
  Forall (λ o, is_Some (entry_time o)) (transactions_file w) →
  serve get_transactions_v1 no_faults w
  = Some (w, {| status := 200;
                payload := Some (JArr (JObj <$> transactions_file w)) |})
  ∧ ∃ out,
      serve get_transactions no_faults w
      = Some (w, {| status := 200; payload := Some (JArr (JObj <$> out)) |})
      ∧ out ≡ₚ transactions_file w.
Proof.
  intros Hmodelled. split; [apply get_transactions_v1_serve|].
  eexists. split; [by apply get_transactions_serve|].
  apply Array_sort_perm.
Qed.

Lemma get_transactions_keeps_every_entry_witness :
  serve get_transactions_v1 no_faults mixed_ledger
  = Some (mixed_ledger,
          {| status := 200;
             payload := Some (JArr (JObj <$> transactions_file mixed_ledger)) |})
  ∧ ∃ out,
      serve get_transactions no_faults mixed_ledger
      = Some (mixed_ledger, {| status := 200; payload := Some (JArr (JObj <$> out)) |})
      ∧ out ≡ₚ transactions_file mixed_ledger.
Proof.
  apply (get_transactions_keeps_every_entry mixed_ledger).
  repeat (apply Forall_cons_2; [vm_compute; eauto|]). apply Forall_nil_2.
Defined.

(** ** Positions in the ledger *)

Lemma by_date_by_key (txs : list (gmap string json)) :
  Forall (λ o, ∃ t, entry_time o = Some (Num t)) txs →
  by_key (λ a b, default NaN (by_date (parse_object a) (parse_object b))) time_of txs.
Proof.
  intros Hdated x y Hx Hy.
  destruct (proj1 (Forall_forall _ _) Hdated x Hx) as [tx Htx].
  destruct (proj1 (Forall_forall _ _) Hdated y Hy) as [ty Hty].
  unfold SortCompare, by_date, time_of. rewrite !get_parsed.
  unfold entry_time in *. by rewrite Htx, Hty.
Qed.

Lemma delete_transactions_at (w : World) (index : string) (z : Z) :
  parseInt (VString index) 0 = Some (Num z) →
  0 ≤ z < Z.of_nat (length (transactions_file w)) →
  serve (delete_transactions index) no_faults w
  = Some ({| items_file := items_file w;
             transactions_file := delete (Z.to_nat z) (transactions_file w) |},
          {| status := 204; payload := None |}).
Proof.
  intros Hparse [Hlo Hhi].
  unfold serve, delete_transactions; cbn [body catch run read].
  rewrite Hparse. cbn [modelled]. unfold out_of_bounds. rewrite length_parsed.
  cbn [number_lt number_le].
  replace ((z <? 0) || (Z.of_nat (length (transactions_file w)) <=? z)) with false.
  2:{ symmetry. apply orb_false_iff. rewrite Z.ltb_ge, Z.leb_gt. lia. }
  assert (Array_splice1 (JSON_parse (transactions_file w)) (Num z)
          = delete (Z.to_nat z) (JSON_parse (transactions_file w))) as ->.
  { unfold Array_splice1. rewrite length_parsed.
    destruct (Z.ltb_spec z 0); [lia|]. by rewrite Z.min_l by lia. }
  cbn. by rewrite stringify_delete.
Qed.

(** X17.  The positions of [PUT] and [DELETE /transactions/:index] are those of
    the stored ledger, not those of the list [GET /transactions] answers
    with.  When every entry is dated and the entry stored first is older
    than some other entry, the list starts with a later entry, and
    [DELETE /transactions/0] removes the entry stored first, not the one
    listed first. *)
Theorem listed_position_is_not_stored_position (w : World)
    (first later : gmap string json) (rest : list (gmap string json)) :
  transactions_file w = first :: rest →
  Forall (λ o, ∃ t, entry_time o = Some (Num t)) (transactions_file w) →
  later ∈ rest →
  time_of first < time_of later →
  ∃ top out,
    serve get_transactions no_faults w
    = Some (w, {| status := 200; payload := Some (JArr (JObj <$> top :: out)) |})
    ∧ time_of first < time_of top
    ∧ serve (delete_transactions "0") no_faults w
      = Some ({| items_file := items_file w; transactions_file := rest |},
              {| status := 204; payload := None |}).
Proof.
  intros Hstored Hdated Hlater Hlt.
  pose proof (by_date_by_key _ Hdated) as Hkey.
  pose proof (Array_sort_perm
    (λ a b, default NaN (by_date (parse_object a) (parse_object b)))
    (transactions_file w)) as Hperm.
  pose proof (Array_sort_sorted _ _ _ Hkey) as Hsorted.
  rewrite get_transactions_serve.
  2:{ eapply Forall_impl; [exact Hdated|]. by intros o [t ->]. }
  destruct (Array_sort _ (transactions_file w)) as [|top out] eqn:Hout.
  { rewrite Hstored in Hperm. by apply Permutation_nil_cons in Hperm. }
  exists top, out. split_and!; [done| |].
  - assert (later ∈ top :: out) as Hin.
    { rewrite Hperm, Hstored. by apply list_elem_of_further. }
    apply StronglySorted_inv in Hsorted as [_ Htop].
    apply elem_of_cons in Hin as [<-|Hin]; [done|].
    pose proof (proj1 (Forall_forall _ _) Htop later Hin) as Hle. cbv beta in Hle. lia.
  - rewrite (delete_transactions_at w "0" 0); [by rewrite Hstored|reflexivity|].
    rewrite Hstored. cbn. lia.
Qed.

Lemma listed_position_is_not_stored_position_witness :
  ∃ top out,
    serve get_transactions no_faults dated_ledger
    = Some (dated_ledger, {| status := 200; payload := Some (JArr (JObj <$> top :: out)) |})
    ∧ time_of {[ "personName" := JStr "Alice"; "itemName" := JStr "Widget";
                 "amount" := JNum 1; "date" := JStr "2024-01-01" ]} < time_of top
    ∧ serve (delete_transactions "0") no_faults dated_ledger
      = Some ({| items_file := items_file dated_ledger;
                 transactions_file :=
                   [ {[ "personName" := JStr "Bob"; "itemName" := JStr "Widget";
                        "amount" := JNum 2; "date" := JStr "2025-01-01" ]};
                     {[ "personName" := JStr "Carol"; "itemName" := JStr "Widget";
                        "amount" := JNum 3; "date" := JStr "2024-01-01" ]} ] |},
              {| status := 204; payload := None |}).
Proof.
  apply (listed_position_is_not_stored_position dated_ledger _
           {[ "personName" := JStr "Bob"; "itemName" := JStr "Widget";
              "amount" := JNum 2; "date" := JStr "2025-01-01" ]}).
  - reflexivity.
  - repeat (apply Forall_cons_2; [vm_compute; eauto|]). apply Forall_nil_2.
  - apply list_elem_of_here.
  - vm_compute. reflexivity.
Defined.

(** ** The earlier revision of take-item *)

Lemma throws_ToPrimitive (v : value) : throws v = true → ToPrimitive v = None.
Proof.
  intros Hv. destruct v; try done; unfold ToPrimitive; by rewrite (throws_ToString _ Hv).
Qed.

Lemma less_than_not_thrown (a b : value) (c : bool) :
  less_than a b = Some c → throws a || throws b = false.
Proof.
  unfold less_than. intros Hlt. apply orb_false_iff. split.
  - destruct (throws a) eqn:Ha; [|done].
    by rewrite (throws_ToPrimitive _ Ha) in Hlt.
  - destruct (throws b) eqn:Hb; [|done].
    rewrite (throws_ToPrimitive _ Hb) in Hlt. by destruct (ToPrimitive a).
Qed.

Lemma take_item_v1_succeeds (w : World) (req_body : gmap string json) (timestamp : string)
    (itemIndex : nat) (item : gmap string value) (itemName amount : json)
    (stock taken : number) (person quantity name : string) :
  req_body !! "itemName" = Some itemName →
  truthy (of_json itemName) = true →
  req_body !! "amount" = Some amount →
  truthy (of_json amount) = true →
  list_find (name_is (of_json itemName)) (JSON_parse (items_file w))
    = Some (itemIndex, item) →
  less_than (get item "amount") (of_json amount) = Some false →
  ToNumber (get item "amount") = Some stock →
  ToNumber (of_json amount) = Some taken →
  exact stock && exact taken && exact (number_sub stock taken) = true →
  ToString (of_json (or_else (req_body !! "personName") (JStr "System"))) = Some person →
  ToString (of_json amount) = Some quantity →
  ToString (get item "name") = Some name →
  serve (take_item_v1 req_body timestamp) no_faults w =
    Some ({| items_file :=
               alter (set_amount (number_sub stock taken)) itemIndex (items_file w);
             transactions_file :=
               transactions_file w ++
               [ {[ "personName" := or_else (req_body !! "personName") (JStr "System");
                    "itemName" := itemName;
                    "amount" := amount;
                    "timestamp" := JStr timestamp ]} ] |},
          json_response 200
            {[ "message" :=
                 VString (person +:+ " took " +:+ quantity +:+ " " +:+ name +:+ "(s)");
               "remaining" := VNumber (number_sub stock taken) ]}).
Proof.
  intros HitemName Hname Hamount Htruthy Hfind Hshort Hstock Htaken Hexact
    Hperson Hquantity Hitem.
  assert (prop req_body "itemName" = of_json itemName) as HpropN
    by (unfold prop; by rewrite HitemName).
  assert (prop req_body "amount" = of_json amount) as HpropA
    by (unfold prop; by rewrite Hamount).
  unfold serve, take_item_v1; cbn [body catch].
  rewrite HpropN, HpropA, Hname, Htruthy.
  cbn [negb orb run read no_faults].
  rewrite Hfind, Hshort, (less_than_not_thrown _ _ _ Hshort). cbn [convert modelled].
  rewrite Hstock, Htaken. cbn [modelled]. rewrite Hexact.
  cbn [negb run write later no_faults read items_file transactions_file].
  rewrite stringify_set_amount by (by apply list_find_Some in Hfind as (? & _)).
  assert (ToString (if negb (truthy (prop req_body "personName")) then VString "System"
                    else prop req_body "personName") = Some person) as Hperson'.
  { rewrite <- Hperson. unfold prop, or_else.
    destruct (req_body !! "personName") as [j|]; [|done].
    by destruct (truthy (of_json j)). }
  rewrite Hperson', (ToString_not_thrown _ _ Hperson').
  rewrite Hquantity, (ToString_not_thrown _ _ Hquantity).
  assert (get (<["amount" := VNumber (number_sub stock taken)]> item) "name"
          = get item "name") as -> by (unfold get; by rewrite lookup_insert_ne).
  rewrite Hitem, (ToString_not_thrown _ _ Hitem). cbn [convert modelled].
  assert (get (<["amount" := VNumber (number_sub stock taken)]> item) "amount"
          = VNumber (number_sub stock taken)) as ->
    by (unfold get; by rewrite lookup_insert_eq).
  do 3 f_equal.
  unfold JSON_stringify. rewrite fmap_app.
  fold (JSON_stringify (JSON_parse (transactions_file w))). rewrite stringify_parse.
  f_equal. cbn [fmap list_fmap]. f_equal. unfold stringify_object.
  erewrite omap_insert_Some by apply stringify_or_else.
  erewrite omap_insert_Some by apply stringify_of_json.
  erewrite omap_insert_Some by apply stringify_of_json.
  by erewrite omap_singleton_Some by reflexivity.
Qed.

Lemma safe_opp (z : Z) : safe z = true → safe (- z) = true.
Proof.
  unfold safe. rewrite !andb_true_iff, !Z.leb_le. lia.
Qed.

Lemma has_name_get (name : string) (o : gmap string json) :
  has_name name o → get (parse_object o) "name" = VString name.
Proof.
  unfold has_name, name_is. destruct (get (parse_object o) "name") as [| |b|n|s|l|m];
    try done.
  - by destruct n.
  - cbn. by intros ->%String.eqb_eq.
Qed.

Lemma take_item_invalid_amount (w : World) (req_body : gmap string json)
    (name : string) (i : nat) (item : gmap string value) (requested : number) :
  req_body !! "itemName" = Some (JStr name) →
  name ≠ "" →
  truthy (prop req_body "amount") = true →
  list_find (name_is (VString name)) (JSON_parse (items_file w)) = Some (i, item) →
  parseInt (prop req_body "amount") 10 = Some requested →
  isNaN requested || number_le requested (Num 0) = true →
  serve (take_item req_body) no_faults w
  = Some (w, error_response 400 "Invalid amount").
Proof.
  intros HitemName Hname Hamount Hfind Hparse Hinvalid.
  unfold serve, take_item; cbn [body catch].
  assert (prop req_body "itemName" = VString name) as ->
    by (unfold prop; by rewrite HitemName).
  cbn [truthy]. apply String.eqb_neq in Hname. rewrite Hname, Hamount.
  cbn [negb orb run read no_faults].
  rewrite Hfind, Hparse, (parseInt_not_thrown _ _ _ Hparse). cbn [convert modelled].
  by rewrite Hinvalid.
Qed.

(** X18.  The earlier revision does not look at the sign of the amount.
    For an item in stock, a take-item of a negative quantity [-k] whose
    taker has a string form ([person]) is answered 200: the stock of the
    item grows by [k] (within the exact range) and the ledger records a
    take of [-k].  The later revision answers the same request 400 "Invalid
    amount" and writes nothing. *)
Theorem take_item_v1_negative_amount_adds_stock (w : World)
    (req_body : gmap string json) (timestamp name person : string)
    (i : nat) (o : gmap string json) (stock k : Z) :
  req_body !! "itemName" = Some (JStr name) →
  name ≠ "" →
  req_body !! "amount" = Some (JNum (- k)) →
  0 < k →
  items_file w !! i = Some o →
  has_name name o →
  (∀ j o', items_file w !! j = Some o' → (j < i)%nat → ¬ has_name name o') →
  o !! "amount" = Some (JNum stock) →
  0 ≤ stock →
  safe k = true →
  safe (stock + k) = true →
  ToString (of_json (or_else (req_body !! "personName") (JStr "System"))) = Some person →
  serve (take_item_v1 req_body timestamp) no_faults w
  = Some ({| items_file := alter (<["amount" := JNum (stock + k)]>) i (items_file w);
             transactions_file :=
               transactions_file w ++
               [ {[ "personName" := or_else (req_body !! "personName") (JStr "System");
                    "itemName" := JStr name;
                    "amount" := JNum (- k);
                    "timestamp" := JStr timestamp ]} ] |},
          {| status := 200;
             payload := Some (JObj
               {[ "message" :=
                    JStr (person +:+ " took " +:+ NilZero.string_of_int (Z.to_int (- k))
                          +:+ " " +:+ name +:+ "(s)");
                  "remaining" := JNum (stock + k) ]}) |})
  ∧ serve (take_item req_body) no_faults w
    = Some (w, error_response 400 "Invalid amount").
Proof.
  intros HitemName Hname Hamount Hk Ho Hhas Hfirst Hstock Hnonneg Hsafek Hsafe Hperson.
  assert (list_find (name_is (VString name)) (JSON_parse (items_file w))
          = Some (i, parse_object o)) as Hfind by (apply find_by_name; eauto 6).
  assert (get (parse_object o) "amount" = VNumber (Num stock)) as Hget
    by (rewrite get_parsed; unfold prop; by rewrite Hstock).
  pose proof (safe_opp _ Hsafek) as Hsafe'.
  assert (safe stock = true) as Hsafes.
  { unfold safe, MAX_SAFE in *. rewrite !andb_true_iff, !Z.leb_le in *. lia. }
  split.
  - erewrite (take_item_v1_succeeds w req_body timestamp i (parse_object o)
                (JStr name) (JNum (- k)) (Num stock) (Num (- k)) person
                (NilZero.string_of_int (Z.to_int (- k))) name).
    + cbn [number_sub]. replace (stock - - k) with (stock + k) by lia.
      unfold json_response, stringify_object.
      erewrite omap_insert_Some by reflexivity.
      by erewrite omap_singleton_Some by reflexivity.
    + done.
    + cbn. by apply negb_true_iff, String.eqb_neq.
    + done.
    + cbn. apply negb_true_iff, Z.eqb_neq. lia.
    + done.
    + rewrite Hget. cbn. rewrite Hsafes, Hsafe'. cbn. f_equal. apply Z.ltb_ge. lia.
    + by rewrite Hget.
    + done.
    + cbn [number_sub exact]. replace (stock - - k) with (stock + k) by lia.
      by rewrite Hsafes, Hsafe', Hsafe.
    + done.
    + cbn. by rewrite Hsafe'.
    + by rewrite (has_name_get name).
  - apply (take_item_invalid_amount w req_body name i (parse_object o) (Num (- k)));
      try done.
    + unfold prop. rewrite Hamount. cbn. apply negb_true_iff, Z.eqb_neq. lia.
    + unfold prop. rewrite Hamount. by apply parseInt_of_number.
    + cbn. apply Z.leb_le. lia.
Qed.

Lemma take_item_v1_negative_amount_adds_stock_witness :
  serve (take_item_v1 {[ "itemName" := JStr "Widget"; "amount" := JNum (- 5) ]}
           "2024-01-01T00:00:00.000Z") no_faults widget_store
  = Some ({| items_file :=
               alter (<["amount" := JNum (10 + 5)]>) 0%nat (items_file widget_store);
             transactions_file :=
               transactions_file widget_store ++
               [ {[ "personName" := JStr "System";
                    "itemName" := JStr "Widget";
                    "amount" := JNum (- 5);
                    "timestamp" := JStr "2024-01-01T00:00:00.000Z" ]} ] |},
          {| status := 200;
             payload := Some (JObj
               {[ "message" := JStr "System took -5 Widget(s)";
                  "remaining" := JNum (10 + 5) ]}) |})
  ∧ serve (take_item {[ "itemName" := JStr "Widget"; "amount" := JNum (- 5) ]})
      no_faults widget_store
    = Some (widget_store, error_response 400 "Invalid amount").
Proof.
  refine (take_item_v1_negative_amount_adds_stock widget_store
            {[ "itemName" := JStr "Widget"; "amount" := JNum (- 5) ]}
            "2024-01-01T00:00:00.000Z" "Widget" "System" 0%nat _ 10 5
            _ _ _ _ _ _ _ _ _ _ _ _).
  - reflexivity.
  - discriminate.
  - reflexivity.
  - lia.
  - reflexivity.
  - vm_compute. reflexivity.
  - intros j o' _ Hj. lia.
  - reflexivity.
  - lia.
  - reflexivity.
  - reflexivity.
  - reflexivity.
Defined.

(** X19.  Nor does the earlier revision check that the amount is a number.
    For an item whose stock is a number within the exact range, a take-item
    whose amount is a text that is not a number (the comparison with it is
    false, the subtraction gives NaN) and whose taker has a string form
    ([person]) is answered 200, and the amount of the item is stored as
    [null]. *)
Theorem take_item_v1_text_amount_erases_stock (w : World)
    (req_body : gmap string json) (timestamp name person text : string)
    (i : nat) (o : gmap string json) (stock : Z) :
  req_body !! "itemName" = Some (JStr name) →
  name ≠ "" →
  req_body !! "amount" = Some (JStr text) →
  ToNumber (VString text) = Some NaN →
  items_file w !! i = Some o →
  has_name name o →
  (∀ j o', items_file w !! j = Some o' → (j < i)%nat → ¬ has_name name o') →
  o !! "amount" = Some (JNum stock) →
  safe stock = true →
  ToString (of_json (or_else (req_body !! "personName") (JStr "System"))) = Some person →
  serve (take_item_v1 req_body timestamp) no_faults w
  = Some ({| items_file := alter (<["amount" := JNull]>) i (items_file w);
             transactions_file :=
               transactions_file w ++
               [ {[ "personName" := or_else (req_body !! "personName") (JStr "System");
                    "itemName" := JStr name;
                    "amount" := JStr text;
                    "timestamp" := JStr timestamp ]} ] |},
          {| status := 200;
             payload := Some (JObj
               {[ "message" :=
                    JStr (person +:+ " took " +:+ text +:+ " " +:+ name +:+ "(s)");
                  "remaining" := JNull ]}) |}).
Proof.
  intros HitemName Hname Hamount Htext Ho Hhas Hfirst Hstock Hsafe Hperson.
  assert (list_find (name_is (VString name)) (JSON_parse (items_file w))
          = Some (i, parse_object o)) as Hfind by (apply find_by_name; eauto 6).
  assert (get (parse_object o) "amount" = VNumber (Num stock)) as Hget
    by (rewrite get_parsed; unfold prop; by rewrite Hstock).
  assert (text ≠ "") as Hnonempty by (by intros ->).
  erewrite (take_item_v1_succeeds w req_body timestamp i (parse_object o)
              (JStr name) (JStr text) (Num stock) NaN person text name).
  - cbn [number_sub]. unfold json_response, stringify_object.
    erewrite omap_insert_Some by reflexivity.
    by erewrite omap_singleton_Some by reflexivity.
  - done.
  - cbn. by apply negb_true_iff, String.eqb_neq.
  - done.
  - cbn. by apply negb_true_iff, String.eqb_neq.
  - done.
  - rewrite Hget. unfold less_than. cbn [ToPrimitive of_json mbind option_bind ToNumber].
    cbn [ToNumber] in Htext. rewrite Htext. cbn. by rewrite Hsafe.
  - by rewrite Hget.
  - done.
  - cbn. by rewrite Hsafe.
  - done.
  - done.
  - by rewrite (has_name_get name).
Qed.

Lemma take_item_v1_text_amount_erases_stock_witness :
  serve (take_item_v1 {[ "itemName" := JStr "Widget"; "amount" := JStr "a few" ]}
           "2024-01-01T00:00:00.000Z") no_faults widget_store
  = Some ({| items_file := alter (<["amount" := JNull]>) 0%nat (items_file widget_store);
             transactions_file :=
               transactions_file widget_store ++
               [ {[ "personName" := JStr "System";
                    "itemName" := JStr "Widget";
                    "amount" := JStr "a few";
                    "timestamp" := JStr "2024-01-01T00:00:00.000Z" ]} ] |},
          {| status := 200;
             payload := Some (JObj
               {[ "message" := JStr "System took a few Widget(s)";
                  "remaining" := JNull ]}) |}).
Proof.
  refine (take_item_v1_text_amount_erases_stock widget_store
            {[ "itemName" := JStr "Widget"; "amount" := JStr "a few" ]}
            "2024-01-01T00:00:00.000Z" "Widget" "System" "a few" 0%nat _ 10
            _ _ _ _ _ _ _ _ _ _).
  - reflexivity.
  - discriminate.
  - reflexivity.
  - reflexivity.
  - reflexivity.
  - vm_compute. reflexivity.
  - intros j o' _ Hj. lia.
  - reflexivity.
  - reflexivity.
  - reflexivity.
Defined.

(** X20.  On what the later revision accepts the two revisions agree.  For a
    whole quantity [k], [0 < k <= stock], a stock within the exact range and
    a taker that has a string form ([person]), both answer 200 with the same
    remaining stock and write the same items file; their ledger entries
    differ in that the earlier one stamps the entry with the time of the
    request ([timestamp]) where the later one stores the date sent with it
    ([date]), and the later one adds the out-of-stock note to the message
    when nothing remains. *)
Theorem take_item_revisions_agree (w : World)
    (req_body : gmap string json) (timestamp name person : string)
    (i : nat) (o : gmap string json) (stock k : Z) :
  req_body !! "itemName" = Some (JStr name) →
  name ≠ "" →
  req_body !! "amount" = Some (JNum k) →
  0 < k →
  k ≤ stock →
  safe stock = true →
  items_file w !! i = Some o →
  has_name name o →
  (∀ j o', items_file w !! j = Some o' → (j < i)%nat → ¬ has_name name o') →
  o !! "amount" = Some (JNum stock) →
  ToString (of_json (or_else (req_body !! "personName") (JStr "System"))) = Some person →
  let items := alter (<["amount" := JNum (stock - k)]>) i (items_file w) in
  let message := person +:+ " took " +:+ NilZero.string_of_int (Z.to_int k)
                 +:+ " " +:+ name +:+ "(s)" in
  serve (take_item_v1 req_body timestamp) no_faults w
  = Some ({| items_file := items;
             transactions_file :=
               transactions_file w ++
               [ {[ "personName" := or_else (req_body !! "personName") (JStr "System");
                    "itemName" := JStr name;
                    "amount" := JNum k;
                    "timestamp" := JStr timestamp ]} ] |},
          {| status := 200;
             payload := Some (JObj {[ "message" := JStr message;
                                      "remaining" := JNum (stock - k) ]}) |})
  ∧ serve (take_item req_body) no_faults w
    = Some ({| items_file := items;
               transactions_file :=
                 transactions_file w ++
                 [ {[ "personName" := or_else (req_body !! "personName") (JStr "System");
                      "itemName" := JStr name;
                      "amount" := JNum k;
                      "date" := or_else (req_body !! "date") (JStr "") ]} ] |},
            {| status := 200;
               payload := Some (JObj
                 {[ "message" :=
                      JStr (if stock - k =? 0
                            then message +:+ ". " +:+ name +:+ " is now out of stock!"
                            else message);
                    "remaining" := JNum (stock - k) ]}) |}).
Proof.
  intros HitemName Hname Hamount Hk Hle Hsafe Ho Hhas Hfirst Hstock Hperson items message.
  assert (list_find (name_is (VString name)) (JSON_parse (items_file w))
          = Some (i, parse_object o)) as Hfind by (apply find_by_name; eauto 6).
  assert (get (parse_object o) "amount" = VNumber (Num stock)) as Hget
    by (rewrite get_parsed; unfold prop; by rewrite Hstock).
  assert (safe k = true ∧ safe (stock - k) = true) as [Hsafek Hsafe'].
  { unfold safe, MAX_SAFE in *. rewrite !andb_true_iff, !Z.leb_le in *. lia. }
  split.
  - erewrite (take_item_v1_succeeds w req_body timestamp i (parse_object o)
                (JStr name) (JNum k) (Num stock) (Num k) person
                (NilZero.string_of_int (Z.to_int k)) name).
    + cbn [number_sub]. unfold json_response, stringify_object.
      erewrite omap_insert_Some by reflexivity.
      by erewrite omap_singleton_Some by reflexivity.
    + done.
    + cbn. by apply negb_true_iff, String.eqb_neq.
    + done.
    + cbn. apply negb_true_iff, Z.eqb_neq. lia.
    + done.
    + rewrite Hget. cbn. rewrite Hsafe, Hsafek. cbn. f_equal. apply Z.ltb_ge. lia.
    + by rewrite Hget.
    + done.
    + cbn. by rewrite Hsafe, Hsafek, Hsafe'.
    + done.
    + cbn. by rewrite Hsafek.
    + by rewrite (has_name_get name).
  - erewrite (take_item_succeeds w req_body i (parse_object o) stock k
                (JStr name) person name).
    + done.
    + done.
    + cbn. by apply negb_true_iff, String.eqb_neq.
    + done.
    + by rewrite Hget.
    + done.
    + unfold prop. rewrite Hamount. by apply parseInt_of_number.
    + done.
    + done.
    + done.
    + by rewrite (has_name_get name).
Qed.

Lemma take_item_revisions_agree_witness :
  let items := alter (<["amount" := JNum (10 - 3)]>) 0%nat (items_file widget_store) in
  let message := "Alice" +:+ " took " +:+ NilZero.string_of_int (Z.to_int 3)
                 +:+ " " +:+ "Widget" +:+ "(s)" in
  serve (take_item_v1 take_three_widgets "2024-01-01T00:00:00.000Z") no_faults widget_store
  = Some ({| items_file := items;
             transactions_file :=
               transactions_file widget_store ++
               [ {[ "personName" := JStr "Alice";
                    "itemName" := JStr "Widget";
                    "amount" := JNum 3;
                    "timestamp" := JStr "2024-01-01T00:00:00.000Z" ]} ] |},
          {| status := 200;
             payload := Some (JObj {[ "message" := JStr message;
                                      "remaining" := JNum (10 - 3) ]}) |})
  ∧ serve (take_item take_three_widgets) no_faults widget_store
    = Some ({| items_file := items;
               transactions_file :=
                 transactions_file widget_store ++
                 [ {[ "personName" := JStr "Alice";
                      "itemName" := JStr "Widget";
                      "amount" := JNum 3;
                      "date" := JStr "" ]} ] |},
            {| status := 200;
               payload := Some (JObj
                 {[ "message" :=
                      JStr (if 10 - 3 =? 0
                            then message +:+ ". " +:+ "Widget" +:+ " is now out of stock!"
                            else message);
                    "remaining" := JNum (10 - 3) ]}) |}).
Proof.
  refine (take_item_revisions_agree widget_store take_three_widgets
            "2024-01-01T00:00:00.000Z" "Widget" "Alice" 0%nat _ 10 3
            _ _ _ _ _ _ _ _ _ _ _).
  - reflexivity.
  - discriminate.
  - reflexivity.
  - lia.
  - lia.
  - reflexivity.
  - reflexivity.
  - vm_compute. reflexivity.
  - intros j o' _ Hj. lia.
  - reflexivity.
  - reflexivity.
Defined.

(** ** Creates in flight together *)

(** X21.  [POST /items] holds no lock between reading the items file and writing
    it.  Of two creates in flight together that both read before either
    writes, each is answered 201 with its item, yet only the item of the one
    that writes last is stored; served one after the other, both are. *)
Theorem interleaved_creates_lose_an_item (w : World)
    (req_body1 req_body2 : gmap string json) (now1 now2 : Z) :
  let item (req_body : gmap string json) (now : Z) : gmap string value :=
    {[ "id" := VNumber (Num now);
       "name" := prop req_body "name";
       "amount" := prop req_body "amount" ]} in
  interleave [0; 1; 0; 1]%nat
    [body (post_items req_body1 now1); body (post_items req_body2 now2)] w
  = ([Done (json_response 201 (item req_body1 now1));
      Done (json_response 201 (item req_body2 now2))],
     {| items_file := items_file w ++ [stringify_object (item req_body2 now2)];
        transactions_file := transactions_file w |})
  ∧ serve_all [ (Create req_body1 now1, no_faults); (Create req_body2 now2, no_faults) ] w
    = Some ({| items_file :=
                 items_file w ++ [stringify_object (item req_body1 now1);
                                  stringify_object (item req_body2 now2)];
               transactions_file := transactions_file w |},
            [ json_response 201 (item req_body1 now1);
              json_response 201 (item req_body2 now2) ]).
Proof.
  intros item. split.
  - cbn [interleave post_items body lookup list_lookup mbind option_bind step
         insert list_insert read write items_file transactions_file].
    do 2 f_equal. unfold JSON_stringify. rewrite fmap_app.
    fold (JSON_stringify (JSON_parse (items_file w))). by rewrite stringify_parse.
  - cbn [serve_all handler]. rewrite post_items_serve. cbv zeta. cbv iota beta.
    rewrite post_items_serve. cbv zeta. cbv iota beta.
    cbn [items_file transactions_file]. by rewrite <- app_assoc.
Qed.

(** ** Values without a primitive value *)

(** X22.  The message of take-item is put together after both writes.  When
    a request passes the four checks and its [personName] cannot be
    converted to a string (an object with a [toString] property, or an
    array holding one), the stock is decremented and the ledger entry is
    appended, with the [personName] as sent, and then the answer is the
    500 of the handler's [catch], with the message of the TypeError. *)
Theorem take_item_message_failure (w : World) (req_body : gmap string json)
    (itemIndex : nat) (item : gmap string value) (stock requested : Z)
    (itemName personName : json) :
  req_body !! "itemName" = Some itemName →
  truthy (of_json itemName) = true →
  req_body !! "personName" = Some personName →
  throws (of_json personName) = true →
  list_find (name_is (of_json itemName)) (JSON_parse (items_file w))
    = Some (itemIndex, item) →
  ToNumber (get item "amount") = Some (Num stock) →
  safe stock = true →
  parseInt (prop req_body "amount") 10 = Some (Num requested) →
  0 < requested →
  requested ≤ stock →
  serve (take_item req_body) no_faults w =
    Some ({| items_file :=
               alter (<["amount" := JNum (stock - requested)]>) itemIndex (items_file w);
             transactions_file :=
               transactions_file w ++
               [ {[ "personName" := personName;
                    "itemName" := itemName;
                    "amount" := JNum requested;
                    "date" := or_else (req_body !! "date") (JStr "") ]} ] |},
          {| status := 500;
             payload := Some (JObj
               {[ "error" := JStr ("Error processing transaction " +:+ not_primitive) ]}) |}).
Proof.
  intros HitemName Hname HpersonName Hthrown Hfind Hstock Hexact Hparse Hpos Hle.
  assert (prop req_body "itemName" = of_json itemName) as Hprop
    by (unfold prop; by rewrite HitemName).
  assert (prop req_body "personName" = of_json personName) as Hperson
    by (unfold prop; by rewrite HpersonName).
  assert (truthy (of_json personName) = true) as Htruthy
    by (by destruct personName).
  pose proof (parseInt_positive_truthy _ _ Hparse Hpos) as Hamount.
  assert (number_lt (Num stock) (Num requested) = false) as Hlt
    by (cbn; apply Z.ltb_ge; lia).
  unfold serve.
  erewrite take_item_valid_run;
    [|by rewrite Hprop|done|by rewrite Hprop|done| |done|done| |done].
  2:{ cbn. apply Z.leb_gt. lia. }
  2:{ apply andb_true_iff. split; [done|]. by apply exact_remaining. }
  cbn [run record_transaction later no_faults read write number_sub
       items_file transactions_file].
  rewrite Hperson, Htruthy. cbn [negb]. rewrite Hthrown.
  cbn [convert run catch take_item]. rewrite error_response_payload.
  do 3 f_equal.
  unfold JSON_stringify. rewrite fmap_app.
  fold (JSON_stringify (JSON_parse (transactions_file w))). rewrite stringify_parse.
  f_equal. cbn [fmap list_fmap]. f_equal. unfold stringify_object.
  erewrite omap_insert_Some by apply stringify_of_json.
  erewrite omap_insert_Some by (rewrite Hprop; apply stringify_of_json).
  erewrite omap_insert_Some by reflexivity.
  by erewrite omap_singleton_Some by apply stringify_else_or.
Qed.

Lemma take_item_message_failure_witness :
  serve (take_item take_three_unsigned) no_faults widget_store =
    Some ({| items_file :=
               alter (<["amount" := JNum (10 - 3)]>) 0%nat (items_file widget_store);
             transactions_file :=
               transactions_file widget_store ++
               [ {[ "personName" := JObj {[ "toString" := JNum 1 ]};
                    "itemName" := JStr "Widget";
                    "amount" := JNum 3;
                    "date" := JStr "" ]} ] |},
          {| status := 500;
             payload := Some (JObj
               {[ "error" := JStr ("Error processing transaction " +:+ not_primitive) ]}) |}).
Proof.
  refine (take_item_message_failure widget_store take_three_unsigned
            0%nat _ 10 3 (JStr "Widget") (JObj {[ "toString" := JNum 1 ]})
            _ _ _ _ _ _ _ _ _ _).
  - reflexivity.
  - reflexivity.
  - reflexivity.
  - reflexivity.
  - vm_compute. reflexivity.
  - reflexivity.
  - reflexivity.
  - reflexivity.
  - lia.
  - lia.
Defined.

(** X23.  The sort of [GET /transactions] makes a [Date] of the date of
    every entry as soon as there are two entries.  So once the ledger holds
    two entries or more and the date of one of them cannot be converted to
    a primitive (take-item stores the date of the request as it is sent),
    every listing of the ledger is answered 500 "Error reading
    transactions", whether or not the read of the file fails. *)
Theorem get_transactions_fails_on_object_date (w : World) (faults : nat → option string)
    (o : gmap string json) :
  (2 ≤ length (transactions_file w))%nat →
  o ∈ transactions_file w →
  throws (prop o "date") = true →
  serve get_transactions faults w
  = Some (w, {| status := 500;
                payload := Some (JObj {[ "error" := JStr "Error reading transactions" ]}) |}).
Proof.
  intros Hlen Ho Hthrown. rewrite <- error_response_payload.
  unfold serve, get_transactions; cbn [body catch run read].
  destruct (faults 0%nat); [done|].
  rewrite length_parsed.
  destruct (Nat.leb_spec 2 (length (transactions_file w))) as [_|]; [|lia].
  assert (existsb (λ t, throws (get t "date")) (JSON_parse (transactions_file w)) = true)
    as ->; [|done].
  apply existsb_exists. exists (parse_object o). split.
  - apply list_elem_of_In, list_elem_of_fmap. eauto.
  - by rewrite get_parsed.
Qed.

Lemma get_transactions_fails_on_object_date_witness :
  serve get_transactions no_faults undatable_ledger
  = Some (undatable_ledger,
          {| status := 500;
             payload := Some (JObj {[ "error" := JStr "Error reading transactions" ]}) |}).
Proof.
  refine (get_transactions_fails_on_object_date undatable_ledger no_faults
            {[ "personName" := JStr "Bob"; "itemName" := JStr "Widget";
               "amount" := JNum 2; "date" := JObj {[ "toString" := JNum 1 ]} ]} _ _ _).
  - cbn. lia.
  - apply list_elem_of_further, list_elem_of_here.
  - reflexivity.
Defined.
